(** * Face attendance client: camera, verification poller, registration

    A shallow embedding of the two stateful React components of the client:

    - [Attendance]: the component [FaceAttendanceSystem] (camera start/stop,
      frame capture, [sendFrameToBackend], [startAttendance], [stopAttendance]);
    - [Register]: the component [FaceRegister] (camera start/stop/toggle,
      [captureImage], [removeImage], [registerUser], [verifyFace], [resetForm]).

    JavaScript runs these handlers on one event loop.  A handler runs without
    interruption up to its next [await] (or up to the registration of a
    callback); what follows the [await] is a continuation that the event loop
    resumes later, when the awaited browser operation settles.  The embedding
    keeps this granularity: a component is a state record, every handler
    segment between two suspension points is a function on that record, and an
    [Event] names what the event loop delivers next (a click, a timer firing,
    a settled promise together with the value the browser produced).

    Values produced by the browser or the backend (the stream returned by
    [getUserMedia], the blob produced by [canvas.toBlob], HTTP responses, the
    clock) are carried by the events. *)

From Stdlib Require QArith.
From stdpp Require Import base option list strings pretty.

Local Open Scope Z_scope.

(** ** Browser objects shared by both components *)

Module Browser.

(** A [MediaStreamTrack] is observed through its [readyState] only. *)
Inductive TrackState := live | ended.

Global Instance TrackState_eq_dec : EqDecision TrackState.
Proof. solve_decision. Defined.

(** A [MediaStream] is the list of its tracks. *)
Definition MediaStream := list TrackState.

(** [stream.getTracks().forEach((track) => track.stop())] *)
Definition stopTracks (st : MediaStream) : MediaStream :=
  (λ _, ended) <$> st.

(** A stream is active while one of its tracks is live. *)
Definition active (st : MediaStream) : bool :=
  bool_decide (live ∈ st).

(** Streams live in the browser; script code holds references to them.  A
    reference is the position of the stream in the list of all streams handed
    out so far. *)
Definition StreamRef := nat.

(** The stream a successful [getUserMedia] resolves to: [n] live tracks. *)
Definition freshStream (n : nat) : MediaStream := replicate n live.

(** Number of active streams among all streams handed out. *)
Definition activeCount (media : list MediaStream) : nat :=
  length (filter (λ st, active st = true) media).

(** Every active stream is the one that [ref] points to. *)
Definition onlyActive (ref : option StreamRef) (media : list MediaStream)
    : Prop :=
  ∀ i st, media !! i = Some st → active st = true → ref = Some i.

(** Outcome of [navigator.mediaDevices.getUserMedia]. *)
Inductive MediaResult :=
  | Granted (tracks : nat)
  | Denied (message : string).

(** The [<video>] element: the stream bound to it, its [readyState], and
    whether an [onloadeddata] handler whose promise is still unresolved is
    installed. *)
Record VideoElement := mkVideo {
  srcObject : option StreamRef;
  readyState : nat;
  onloadeddata : bool
}.

Definition newVideo : VideoElement := mkVideo None 0 false.

Definition clearSrc (v : VideoElement) : VideoElement :=
  mkVideo None (readyState v) (onloadeddata v).

Definition bindSrc (r : StreamRef) (v : VideoElement) : VideoElement :=
  mkVideo (Some r) (readyState v) (onloadeddata v).

(** The hidden [<canvas>]: [getContext("2d")] yields a context or [null]. *)
Record Canvas := mkCanvas { context2d : bool }.

(** Image data produced by [canvas.toBlob]. *)
Definition Blob := list Byte.byte.

(** A JavaScript number that is only copied around. *)
Definition JsNumber := QArith_base.Q.

(** What [fetch] followed by [response.json()] can produce. *)
Record Response (A : Type) := mkResponse {
  status : Z;
  statusText : string;
  (** [response.json()]: the decoded body, or the message of the error it
      rejects with *)
  json : string + A
}.
Arguments mkResponse {A}.
Arguments status {A}.
Arguments statusText {A}.
Arguments json {A}.

(** [response.ok]: the status is in the range 200-299. *)
Definition ok {A} (r : Response A) : bool :=
  (200 <=? status r) && (status r <=? 299).

Inductive FetchResult (A : Type) :=
  | NetworkError (message : string)    (* the promise of [fetch] rejects *)
  | Responded (r : Response A).
Arguments NetworkError {A}.
Arguments Responded {A}.

End Browser.
Import Browser.

(** ** The attendance page: component [FaceAttendanceSystem] *)

Module Attendance.

Record AttendanceRecord := mkRecord {
  userId : string;
  timestamp : string;
  confidenceScore : JsNumber
}.

Record VerifyResponse := mkVerify {
  verified : bool;
  user_id : string;
  confidence_score : JsNumber;
  message : option string
}.

(** Calls of [toast.success] and [toast.error]. *)
Inductive Toast :=
  | ToastSuccess (text : string)
  | ToastError (text : option string).

(** A request handed to [fetch]. *)
Inductive Request :=
  | PostVerify (imageFile : Blob) (filename : string).

(** The component: React state, refs, the browser objects the component
    reaches, and the continuations that are suspended at an [await].  None of
    the continuations carries data of its own (each one only reads the refs),
    so a counter per suspension point records them. *)
Record State := mkState {
  (* useState *)
  isCapturing : bool;
  attendanceLog : list AttendanceRecord;
  error : option string;
  processing : bool;
  (* useRef *)
  videoRef : option VideoElement;
  streamRef : option StreamRef;
  canvasRef : option Canvas;
  intervalRef : option nat;
  (* browser *)
  media : list MediaStream;
  activeTimers : list nat;
  nextTimer : nat;
  toasts : list Toast;
  requests : list Request;
  (* suspended continuations *)
  delayed : nat;      (* [startAttendance] in its 100 ms delay *)
  acquiring : nat;    (* [startCamera] awaiting [getUserMedia] *)
  encoding : nat;     (* a tick awaiting [canvas.toBlob] *)
  inflight : nat      (* a tick awaiting the response of [POST /verify] *)
}.

Definition setIsCapturing (b : bool) (s : State) : State :=
  mkState b (attendanceLog s) (error s) (processing s) (videoRef s)
    (streamRef s) (canvasRef s) (intervalRef s) (media s) (activeTimers s)
    (nextTimer s) (toasts s) (requests s) (delayed s) (acquiring s)
    (encoding s) (inflight s).

Definition setAttendanceLog
    (f : list AttendanceRecord → list AttendanceRecord) (s : State) : State :=
  mkState (isCapturing s) (f (attendanceLog s)) (error s) (processing s)
    (videoRef s) (streamRef s) (canvasRef s) (intervalRef s) (media s)
    (activeTimers s) (nextTimer s) (toasts s) (requests s) (delayed s)
    (acquiring s) (encoding s) (inflight s).

Definition setError (e : option string) (s : State) : State :=
  mkState (isCapturing s) (attendanceLog s) e (processing s) (videoRef s)
    (streamRef s) (canvasRef s) (intervalRef s) (media s) (activeTimers s)
    (nextTimer s) (toasts s) (requests s) (delayed s) (acquiring s)
    (encoding s) (inflight s).

Definition setProcessing (b : bool) (s : State) : State :=
  mkState (isCapturing s) (attendanceLog s) (error s) b (videoRef s)
    (streamRef s) (canvasRef s) (intervalRef s) (media s) (activeTimers s)
    (nextTimer s) (toasts s) (requests s) (delayed s) (acquiring s)
    (encoding s) (inflight s).

Definition setVideoRef (v : option VideoElement) (s : State) : State :=
  mkState (isCapturing s) (attendanceLog s) (error s) (processing s) v
    (streamRef s) (canvasRef s) (intervalRef s) (media s) (activeTimers s)
    (nextTimer s) (toasts s) (requests s) (delayed s) (acquiring s)
    (encoding s) (inflight s).

Definition setStreamRef (r : option StreamRef) (s : State) : State :=
  mkState (isCapturing s) (attendanceLog s) (error s) (processing s)
    (videoRef s) r (canvasRef s) (intervalRef s) (media s) (activeTimers s)
    (nextTimer s) (toasts s) (requests s) (delayed s) (acquiring s)
    (encoding s) (inflight s).

Definition setIntervalRef (i : option nat) (s : State) : State :=
  mkState (isCapturing s) (attendanceLog s) (error s) (processing s)
    (videoRef s) (streamRef s) (canvasRef s) i (media s) (activeTimers s)
    (nextTimer s) (toasts s) (requests s) (delayed s) (acquiring s)
    (encoding s) (inflight s).

Definition setMedia (m : list MediaStream) (s : State) : State :=
  mkState (isCapturing s) (attendanceLog s) (error s) (processing s)
    (videoRef s) (streamRef s) (canvasRef s) (intervalRef s) m
    (activeTimers s) (nextTimer s) (toasts s) (requests s) (delayed s)
    (acquiring s) (encoding s) (inflight s).

Definition setTimers (t : list nat) (n : nat) (s : State) : State :=
  mkState (isCapturing s) (attendanceLog s) (error s) (processing s)
    (videoRef s) (streamRef s) (canvasRef s) (intervalRef s) (media s) t n
    (toasts s) (requests s) (delayed s) (acquiring s) (encoding s)
    (inflight s).

Definition toast (t : Toast) (s : State) : State :=
  mkState (isCapturing s) (attendanceLog s) (error s) (processing s)
    (videoRef s) (streamRef s) (canvasRef s) (intervalRef s) (media s)
    (activeTimers s) (nextTimer s) (toasts s ++ [t]) (requests s) (delayed s)
    (acquiring s) (encoding s) (inflight s).

Definition fetch (r : Request) (s : State) : State :=
  mkState (isCapturing s) (attendanceLog s) (error s) (processing s)
    (videoRef s) (streamRef s) (canvasRef s) (intervalRef s) (media s)
    (activeTimers s) (nextTimer s) (toasts s) (requests s ++ [r]) (delayed s)
    (acquiring s) (encoding s) (S (inflight s)).

Definition setSuspended (d a e i : nat) (s : State) : State :=
  mkState (isCapturing s) (attendanceLog s) (error s) (processing s)
    (videoRef s) (streamRef s) (canvasRef s) (intervalRef s) (media s)
    (activeTimers s) (nextTimer s) (toasts s) (requests s) d a e i.

(** The component as first rendered: not capturing, so the [<video>] element
    is not in the document (it is rendered only while [isCapturing]); the
    canvas always is.  Timer handles of [setInterval] are positive, which is
    what the truthiness tests on [intervalRef.current] rely on. *)
Definition init (c : Canvas) : State :=
  mkState false [] None false None None (Some c) None [] [] 1 [] [] 0 0 0 0.

(** React commits a render after each handler segment: the [<video>] element
    exists exactly while [isCapturing] holds, and [videoRef.current] follows
    it. *)
Definition commit (s : State) : State :=
  if isCapturing s then
    match videoRef s with
    | Some _ => s
    | None => setVideoRef (Some newVideo) s
    end
  else setVideoRef None s.

(** *** Camera *)

(** [startCamera], up to [await navigator.mediaDevices.getUserMedia(...)]. *)
Definition startCamera_request (s : State) : State :=
  let s := setError None s in
  setSuspended (delayed s) (S (acquiring s)) (encoding s) (inflight s) s.

(** [startCamera], from the settled [getUserMedia] on.  A rejection, and the
    [throw] for a missing video element, both end in the [catch] block. *)
Definition startCamera_resume (r : MediaResult) (s : State) : State :=
  match r with
  | Granted n =>
      let ref := length (media s) in
      let s := setMedia (media s ++ [freshStream n]) s in
      let s := setStreamRef (Some ref) s in
      match videoRef s with
      | None =>
          setError (Some ("Could not access camera: " +:+
                          "Video element not available")) s
      | Some v => setVideoRef (Some (bindSrc ref v)) s
      end
  | Denied msg => setError (Some ("Could not access camera: " +:+ msg)) s
  end.

Definition stopCamera (s : State) : State :=
  let s :=
    match streamRef s with
    | Some r => setStreamRef None (setMedia (alter stopTracks r (media s)) s)
    | None => s
    end in
  match videoRef s with
  | Some v => setVideoRef (Some (clearSrc v)) s
  | None => s
  end.

(** [captureFrame], up to the promise around [canvas.toBlob]: [true] when the
    promise is created, [false] when the function returns [null]. *)
Definition captureFrame (s : State) : bool :=
  match videoRef s, canvasRef s with
  | Some _, Some c => context2d c
  | _, _ => false
  end.

(** *** Verification request *)

(** [sendFrameToBackend], up to [await fetch(...)].  With no blob the function
    returns [false] at once and nothing is sent. *)
Definition sendFrame_request (blob : option Blob) (s : State) : State :=
  match blob with
  | None => s
  | Some b => fetch (PostVerify b "capture.jpg") (setProcessing true s)
  end.

(** What the [try] block of [sendFrameToBackend] has in hand once the
    response is there: the message of the error thrown, or the decoded body. *)
Definition verifyOutcome (r : FetchResult VerifyResponse)
    : string + VerifyResponse :=
  match r with
  | NetworkError msg => inl msg
  | Responded resp =>
      if negb (ok resp)
      then inl ("Server responded with " +:+ pretty (status resp))
      else json resp
  end.

(** [sendFrameToBackend], from the settled [fetch] on; [now] is
    [new Date().toLocaleString()].  The result is the boolean the function
    returns. *)
Definition sendFrame_resume (r : FetchResult VerifyResponse) (now : string)
    (s : State) : bool * State :=
  match verifyOutcome r with
  | inr data =>
      let s := setProcessing false s in
      if verified data then
        let newAttendance :=
          mkRecord (user_id data) now (confidence_score data) in
        let s := toast (ToastSuccess ("Successfully recorded attendance for "
                                      +:+ user_id data)) s in
        (true, setAttendanceLog (λ prev, newAttendance :: prev) s)
      else
        (false, toast (ToastError (message data)) s)
  | inl msg =>
      let s := setProcessing false s in
      (false, setError (Some ("Error verifying face: " +:+ msg)) s)
  end.

(** *** The polling loop *)

Definition clearInterval (id : nat) (s : State) : State :=
  setTimers (filter (λ t, t ≠ id) (activeTimers s)) (nextTimer s) s.

Definition stopAttendance (s : State) : State :=
  let s := setIsCapturing false s in
  let s := stopCamera s in
  match intervalRef s with
  | Some id => setIntervalRef None (clearInterval id s)
  | None => s
  end.

(** [intervalRef.current = window.setInterval(..., 2000)] *)
Definition armInterval (s : State) : State :=
  let id := nextTimer s in
  setIntervalRef (Some id) (setTimers (activeTimers s ++ [id]) (S id) s).

(** [startAttendance], up to the 100 ms delay. *)
Definition startAttendance_click (s : State) : State :=
  if isCapturing s then s
  else
    let s := setIsCapturing true s in
    setSuspended (S (delayed s)) (acquiring s) (encoding s) (inflight s) s.

(** [startAttendance], from the camera being started to the wait for the
    video: the interval is armed at once when the video already has data or
    when there is no video element, otherwise an [onloadeddata] handler is
    installed and the function stays suspended until it runs.  Since
    [startCamera] catches its own errors, nothing in the [try] block of
    [startAttendance] throws, and its [catch] block is never entered. *)
Definition startAttendance_ready (s : State) : State :=
  match videoRef s with
  | Some v =>
      if (2 <=? readyState v)%nat then armInterval s
      else setVideoRef (Some (mkVideo (srcObject v) (readyState v) true)) s
  | None => armInterval s
  end.

(** The video element fires [loadeddata] once the bound stream has delivered
    a frame; a pending [onloadeddata] promise resolves and [startAttendance]
    goes on to arm the interval. *)
Definition loadedData (s : State) : State :=
  match videoRef s with
  | Some v =>
      match srcObject v with
      | Some r =>
          let s := setVideoRef (Some (mkVideo (Some r) 2 false)) s in
          if onloadeddata v then armInterval s else s
      | None => s
      end
  | None => s
  end.

(** What the event loop can deliver to the component. *)
Inductive Event :=
  | ClickStart                                  (* button: [startAttendance] *)
  | DelayElapsed                                (* the 100 ms timeout *)
  | MediaSettled (r : MediaResult)              (* [getUserMedia] settles *)
  | LoadedData                                  (* [loadeddata] on the video *)
  | ClickStop                                   (* button: [stopAttendance] *)
  | TimerFired (id : nat)                       (* an interval timer fires *)
  | BlobReady (blob : option Blob)              (* [canvas.toBlob] calls back *)
  | FetchSettled (r : FetchResult VerifyResponse) (now : string).

(** One handler segment.  An event for which nothing is waiting (a timer that
    was cleared, a continuation that does not exist) changes nothing. *)
Definition handle (e : Event) (s : State) : State :=
  match e with
  | ClickStart => startAttendance_click s
  | DelayElapsed =>
      match delayed s with
      | S d =>
          startCamera_request
            (setSuspended d (acquiring s) (encoding s) (inflight s) s)
      | O => s
      end
  | MediaSettled r =>
      match acquiring s with
      | S a =>
          startAttendance_ready
            (startCamera_resume r
               (setSuspended (delayed s) a (encoding s) (inflight s) s))
      | O => s
      end
  | LoadedData => loadedData s
  | ClickStop => stopAttendance s
  | TimerFired id =>
      if bool_decide (id ∈ activeTimers s) then
        if captureFrame s
        then setSuspended (delayed s) (acquiring s) (S (encoding s))
               (inflight s) s
        else s   (* no frame: [sendFrameToBackend(null)] returns [false] *)
      else s
  | BlobReady blob =>
      match encoding s with
      | S n =>
          sendFrame_request blob
            (setSuspended (delayed s) (acquiring s) n (inflight s) s)
      | O => s
      end
  | FetchSettled r now =>
      match inflight s with
      | S n =>
          let '(v, s) :=
            sendFrame_resume r now
              (setSuspended (delayed s) (acquiring s) (encoding s) n s) in
          if v then stopAttendance s else s
      | O => s
      end
  end.

Definition step (s : State) (e : Event) : State := commit (handle e s).

Definition run (s : State) (es : list Event) : State := foldl step s es.

(** The states a run goes through, the first one included. *)
Fixpoint trace (s : State) (es : list Event) : list State :=
  match es with
  | [] => [s]
  | e :: es => s :: trace (step s e) es
  end.

(** No tick continuation is waiting. *)
Definition quiet (s : State) : Prop :=
  encoding s = 0%nat ∧ inflight s = 0%nat.

(** Between two commands no start is under way, an idle poller holds no
    stream, and every active stream is the one [streamRef] points to. *)
Definition settled (s : State) : Prop :=
  delayed s = 0%nat ∧ acquiring s = 0%nat
  ∧ (isCapturing s = false → streamRef s = None)
  ∧ onlyActive (streamRef s) (media s).

(** The two states of the poller. *)
Inductive Phase := Idle | Capturing.

Definition phase (s : State) : Phase :=
  if isCapturing s then Capturing else Idle.

(** A start command that runs to the armed interval with nothing else
    interleaved: click, delay, camera, first video data. *)
Definition startCommand (r : MediaResult) : list Event :=
  [ClickStart; DelayElapsed; MediaSettled r; LoadedData].

(** One tick whose frame is encoded and whose request is answered before
    anything else happens. *)
Definition tick (id : nat) (blob : option Blob)
    (r : FetchResult VerifyResponse) (now : string) : list Event :=
  [TimerFired id; BlobReady blob; FetchSettled r now].

(** *** Poller commands that run to completion before the next one starts *)
Inductive Command :=
  | StartCmd (r : MediaResult)
  | StopCmd
  | TickCmd (id : nat) (blob : option Blob) (r : FetchResult VerifyResponse)
      (now : string).

Definition events (c : Command) : list Event :=
  match c with
  | StartCmd r => startCommand r
  | StopCmd => [ClickStop]
  | TickCmd id blob r now => tick id blob r now
  end.

Definition exec (s : State) (cs : list Command) : State :=
  foldl (λ s c, run s (events c)) s cs.

(** A timer firing whose frame is encoded at once, the response still
    outstanding. *)
Definition fire (id : nat) (b : Blob) : list Event :=
  [TimerFired id; BlobReady (Some b)].

(** A run in which every firing of a timer finds the ticks before it
    completed: no frame is being encoded and no request is in flight. *)
Fixpoint serialised (s : State) (es : list Event) : Prop :=
  match es with
  | [] => True
  | e :: es =>
      match e with TimerFired _ => quiet s | _ => True end
      ∧ serialised (step s e) es
  end.

(** *** Unmounting *)

(** The clean-up of the mount effect: the tracks of the held stream are
    stopped and the interval is cleared; the refs keep their values. *)
Definition unmount (s : State) : State :=
  let s :=
    match streamRef s with
    | Some r => setMedia (alter stopTracks r (media s)) s
    | None => s
    end in
  match intervalRef s with
  | Some id => clearInterval id s
  | None => s
  end.

(** Between two commands the only timer that can be active is the one in
    [intervalRef], an idle poller has neither a timer nor a video element,
    and a video element that still waits for its first data has no stream. *)
Definition steady (s : State) : Prop :=
  settled s
  ∧ activeTimers s = option_list (intervalRef s)
  ∧ (isCapturing s = false → intervalRef s = None ∧ videoRef s = None)
  ∧ (∀ v, videoRef s = Some v → onloadeddata v = true → srcObject v = None).

End Attendance.

(** ** The registration page: component [FaceRegister] *)

Module Register.

Record CapturedImage := mkImage {
  id : Z;
  blob : Blob;
  url : string
}.

Inductive MessageType := error | success | info | blank.

Record MessageState := mkMessage {
  text : string;
  type : MessageType
}.

Record VerificationResult := mkResult {
  verified : bool;
  user_id : option string;
  confidence_score : option JsNumber
}.

Inductive FacingMode := user | environment.

Inductive Request :=
  | PostRegister (id : string) (imageFile : Blob) (filename : string)
  | PostVerify (imageFile : Blob) (filename : string).

(** What a suspended [registerUser] still reads after its [await]: the
    [userId] and the number of images of the render it was called in. *)
Record RegisterClosure := mkClosure {
  closure_userId : string;
  closure_count : nat
}.

Record State := mkState {
  (* useState *)
  userId : string;
  capturedImages : list CapturedImage;
  isLoading : bool;
  stremLoaded : bool;
  message : MessageState;
  verificationResult : option VerificationResult;
  facingMode : FacingMode;
  (* useRef *)
  videoStreamRef : option StreamRef;
  videoRef : option VideoElement;
  canvasRef : option Canvas;
  (* browser *)
  media : list MediaStream;
  objectURLs : list (string * Blob);   (* the blob URL store *)
  nextURL : nat;
  requests : list Request;
  (* suspended continuations *)
  acquiring : nat;                     (* [startCamera] at [getUserMedia] *)
  encoding : nat;                      (* [captureImage] awaiting [toBlob] *)
  registering : list RegisterClosure;  (* [registerUser] at [Promise.all] *)
  verifyEncoding : nat;                (* [verifyFace] awaiting [toBlob] *)
  verifyInflight : nat                 (* [verifyFace] awaiting [fetch] *)
}.

Definition setUserId (u : string) (s : State) : State :=
  mkState u (capturedImages s) (isLoading s) (stremLoaded s) (message s)
    (verificationResult s) (facingMode s) (videoStreamRef s) (videoRef s)
    (canvasRef s) (media s) (objectURLs s) (nextURL s) (requests s)
    (acquiring s) (encoding s) (registering s) (verifyEncoding s)
    (verifyInflight s).

Definition setCapturedImages (f : list CapturedImage → list CapturedImage)
    (s : State) : State :=
  mkState (userId s) (f (capturedImages s)) (isLoading s) (stremLoaded s)
    (message s) (verificationResult s) (facingMode s) (videoStreamRef s)
    (videoRef s) (canvasRef s) (media s) (objectURLs s) (nextURL s)
    (requests s) (acquiring s) (encoding s) (registering s)
    (verifyEncoding s) (verifyInflight s).

Definition setIsLoading (b : bool) (s : State) : State :=
  mkState (userId s) (capturedImages s) b (stremLoaded s) (message s)
    (verificationResult s) (facingMode s) (videoStreamRef s) (videoRef s)
    (canvasRef s) (media s) (objectURLs s) (nextURL s) (requests s)
    (acquiring s) (encoding s) (registering s) (verifyEncoding s)
    (verifyInflight s).

Definition setSteamLoaded (b : bool) (s : State) : State :=
  mkState (userId s) (capturedImages s) (isLoading s) b (message s)
    (verificationResult s) (facingMode s) (videoStreamRef s) (videoRef s)
    (canvasRef s) (media s) (objectURLs s) (nextURL s) (requests s)
    (acquiring s) (encoding s) (registering s) (verifyEncoding s)
    (verifyInflight s).

Definition setMessage (m : MessageState) (s : State) : State :=
  mkState (userId s) (capturedImages s) (isLoading s) (stremLoaded s) m
    (verificationResult s) (facingMode s) (videoStreamRef s) (videoRef s)
    (canvasRef s) (media s) (objectURLs s) (nextURL s) (requests s)
    (acquiring s) (encoding s) (registering s) (verifyEncoding s)
    (verifyInflight s).

Definition setVerificationResult (r : option VerificationResult) (s : State)
    : State :=
  mkState (userId s) (capturedImages s) (isLoading s) (stremLoaded s)
    (message s) r (facingMode s) (videoStreamRef s) (videoRef s)
    (canvasRef s) (media s) (objectURLs s) (nextURL s) (requests s)
    (acquiring s) (encoding s) (registering s) (verifyEncoding s)
    (verifyInflight s).

Definition setFacingMode (f : FacingMode → FacingMode) (s : State) : State :=
  mkState (userId s) (capturedImages s) (isLoading s) (stremLoaded s)
    (message s) (verificationResult s) (f (facingMode s)) (videoStreamRef s)
    (videoRef s) (canvasRef s) (media s) (objectURLs s) (nextURL s)
    (requests s) (acquiring s) (encoding s) (registering s)
    (verifyEncoding s) (verifyInflight s).

Definition setVideoStreamRef (r : option StreamRef) (s : State) : State :=
  mkState (userId s) (capturedImages s) (isLoading s) (stremLoaded s)
    (message s) (verificationResult s) (facingMode s) r (videoRef s)
    (canvasRef s) (media s) (objectURLs s) (nextURL s) (requests s)
    (acquiring s) (encoding s) (registering s) (verifyEncoding s)
    (verifyInflight s).

Definition setVideoRef (v : option VideoElement) (s : State) : State :=
  mkState (userId s) (capturedImages s) (isLoading s) (stremLoaded s)
    (message s) (verificationResult s) (facingMode s) (videoStreamRef s) v
    (canvasRef s) (media s) (objectURLs s) (nextURL s) (requests s)
    (acquiring s) (encoding s) (registering s) (verifyEncoding s)
    (verifyInflight s).

Definition setMedia (m : list MediaStream) (s : State) : State :=
  mkState (userId s) (capturedImages s) (isLoading s) (stremLoaded s)
    (message s) (verificationResult s) (facingMode s) (videoStreamRef s)
    (videoRef s) (canvasRef s) m (objectURLs s) (nextURL s) (requests s)
    (acquiring s) (encoding s) (registering s) (verifyEncoding s)
    (verifyInflight s).

Definition setObjectURLs (u : list (string * Blob)) (n : nat) (s : State)
    : State :=
  mkState (userId s) (capturedImages s) (isLoading s) (stremLoaded s)
    (message s) (verificationResult s) (facingMode s) (videoStreamRef s)
    (videoRef s) (canvasRef s) (media s) u n (requests s) (acquiring s)
    (encoding s) (registering s) (verifyEncoding s) (verifyInflight s).

Definition setRequests (r : list Request) (s : State) : State :=
  mkState (userId s) (capturedImages s) (isLoading s) (stremLoaded s)
    (message s) (verificationResult s) (facingMode s) (videoStreamRef s)
    (videoRef s) (canvasRef s) (media s) (objectURLs s) (nextURL s) r
    (acquiring s) (encoding s) (registering s) (verifyEncoding s)
    (verifyInflight s).

Definition setSuspended (a e : nat) (r : list RegisterClosure) (ve vi : nat)
    (s : State) : State :=
  mkState (userId s) (capturedImages s) (isLoading s) (stremLoaded s)
    (message s) (verificationResult s) (facingMode s) (videoStreamRef s)
    (videoRef s) (canvasRef s) (media s) (objectURLs s) (nextURL s)
    (requests s) a e r ve vi.

(** The component after its first render and before its effect has run: the
    [<video>] and [<canvas>] elements are always rendered. *)
Definition init (c : Canvas) : State :=
  mkState EmptyString [] false false (mkMessage EmptyString blank) None user
    None (Some newVideo) (Some c) [] [] 0 [] 0 0 [] 0 0.

(** *** Camera *)

Definition stopCamera (s : State) : State :=
  let s :=
    match videoStreamRef s with
    | Some r => setMedia (alter stopTracks r (media s)) s
    | None => s
    end in
  let s := setSteamLoaded false s in
  match videoRef s with
  | Some v => setVideoRef (Some (clearSrc v)) s
  | None => s
  end.

(** [startCamera], up to [await navigator.mediaDevices.getUserMedia(...)]. *)
Definition startCamera_request (s : State) : State :=
  let s :=
    match videoStreamRef s with
    | Some _ => stopCamera s
    | None => s
    end in
  setSuspended (S (acquiring s)) (encoding s) (registering s)
    (verifyEncoding s) (verifyInflight s) s.

(** [startCamera], from the settled [getUserMedia] on. *)
Definition startCamera_resume (r : MediaResult) (s : State) : State :=
  match r with
  | Granted n =>
      let ref := length (media s) in
      let s := setMedia (media s ++ [freshStream n]) s in
      let s := setSteamLoaded true (setVideoStreamRef (Some ref) s) in
      match videoRef s with
      | Some v => setVideoRef (Some (bindSrc ref v)) s
      | None => s
      end
  | Denied msg =>
      setMessage
        (mkMessage ("Camera access error: " +:+ msg +:+
                    ". Please grant camera permissions.") error) s
  end.

Definition flip (m : FacingMode) : FacingMode :=
  match m with user => environment | environment => user end.

(** [toggleCamera] changes [facingMode]; the effect that depends on it then
    runs its clean-up ([stopCamera]) and itself ([startCamera]). *)
Definition toggleCamera (s : State) : State :=
  startCamera_request (stopCamera (setFacingMode flip s)).

(** *** Pending images *)

(** [captureImage], up to [canvas.toBlob]. *)
Definition captureImage_click (s : State) : State :=
  if (10 <=? length (capturedImages s))%nat then
    setMessage (mkMessage "Maximum number of images (10) reached" error) s
  else
    match videoRef s, canvasRef s with
    | Some _, Some c =>
        if context2d c
        then setSuspended (acquiring s) (S (encoding s)) (registering s)
               (verifyEncoding s) (verifyInflight s) s
        else s
    | _, _ => s
    end.

(** [URL.createObjectURL(blob)]: registers the blob in the blob URL store
    under a URL that was never handed out before. *)
Definition createObjectURL (b : Blob) (s : State) : string * State :=
  let u := "blob:" +:+ pretty (nextURL s) in
  (u, setObjectURLs (objectURLs s ++ [(u, b)]) (S (nextURL s)) s).

(** The callback handed to [canvas.toBlob]; [now] is [Date.now()]. *)
Definition captureImage_blob (b : option Blob) (now : Z) (s : State) : State :=
  match b with
  | Some b =>
      let '(u, s) := createObjectURL b s in
      let imageObj := mkImage now b u in
      let s := setCapturedImages (λ prev, prev ++ [imageObj]) s in
      setMessage (mkMessage "Image captured successfully" success) s
  | None => s
  end.

Definition removeImage (imageId : Z) (s : State) : State :=
  setCapturedImages (λ prev, filter (λ img, id img ≠ imageId) prev) s.

Definition resetForm (s : State) : State :=
  let s := setUserId EmptyString s in
  let s := setCapturedImages (λ _, []) s in
  let s := setMessage (mkMessage EmptyString blank) s in
  setVerificationResult None s.

(** *** Registration *)

(** [String.prototype.trim] removes from both ends of a string the
    characters that ECMAScript calls WhiteSpace and LineTerminator.  Strings
    are held in UTF-8 here (the encoding string literals are read in), so a
    character is a sequence of one to three bytes; all the characters that
    [trim] removes are in the basic plane. *)

(** UTF-8 of a code point of the basic plane. *)
Definition utf8 (c : N) : list Ascii.ascii :=
  Ascii.ascii_of_N <$>
    (if (c <? 0x80)%N then [c]
     else if (c <? 0x800)%N then [0xC0 + c / 64; 0x80 + c mod 64]%N
     else [0xE0 + c / 4096; 0x80 + (c / 64) mod 64; 0x80 + c mod 64]%N).

(** WhiteSpace: TAB, VT, FF, ZWNBSP and the space separators (SP, NBSP,
    U+1680, U+2000 to U+200A, U+202F, U+205F, U+3000); LineTerminator: LF,
    CR, U+2028, U+2029. *)
Definition whiteSpace : list N :=
  [ 0x0009; 0x000B; 0x000C; 0xFEFF;
    0x0020; 0x00A0; 0x1680; 0x2000; 0x2001; 0x2002; 0x2003; 0x2004; 0x2005;
    0x2006; 0x2007; 0x2008; 0x2009; 0x200A; 0x202F; 0x205F; 0x3000;
    0x000A; 0x000D; 0x2028; 0x2029 ]%N.

Definition isWhiteSpace (w : list Ascii.ascii) : bool :=
  bool_decide (w ∈ utf8 <$> whiteSpace).

(** Removes from the front of [s], as long as there is one, a character
    (one, two or three bytes) that [ws] accepts. *)
Fixpoint strip (ws : list Ascii.ascii → bool) (s : list Ascii.ascii)
    : list Ascii.ascii :=
  match s with
  | [] => s
  | a :: r1 =>
      if ws [a] then strip ws r1
      else
        match r1 with
        | [] => s
        | b :: r2 =>
            if ws [a; b] then strip ws r2
            else
              match r2 with
              | [] => s
              | c :: r3 => if ws [a; b; c] then strip ws r3 else s
              end
        end
  end.

Definition trimStart (s : list Ascii.ascii) : list Ascii.ascii :=
  strip isWhiteSpace s.

Definition trimEnd (s : list Ascii.ascii) : list Ascii.ascii :=
  reverse (strip (λ w, isWhiteSpace (reverse w)) (reverse s)).

Definition trim (s : string) : string :=
  String.string_of_list_ascii
    (trimEnd (trimStart (String.list_ascii_of_string s))).

(** A string made of white space and line terminators only. *)
Definition whiteSpaceOnly (s : string) : Prop :=
  ∃ cs : list N,
    Forall (λ c, c ∈ whiteSpace) cs
    ∧ String.list_ascii_of_string s = concat (utf8 <$> cs).

(** Truthiness of a string: non-empty. *)
Definition truthy (s : string) : bool :=
  match s with EmptyString => false | String _ _ => true end.

(** The requests [capturedImages.map(async (image) => ...)] issues: each call
    of the callback runs up to its [await fetch(...)], in list order. *)
Definition registerRequests (uid : string) (imgs : list CapturedImage)
    : list Request :=
  (λ image,
     PostRegister uid (blob image) ("face_" +:+ pretty (id image) +:+ ".jpg"))
  <$> imgs.

(** [registerUser], up to [await Promise.all(...)]. *)
Definition registerUser_click (s : State) : State :=
  if negb (truthy (trim (userId s))) then
    setMessage (mkMessage "Please enter a user ID" error) s
  else if (length (capturedImages s) =? 0)%nat then
    setMessage (mkMessage "Please capture at least one image" error) s
  else
    let s := setIsLoading true s in
    let s := setMessage (mkMessage "Registering user..." info) s in
    let s :=
      setRequests
        (requests s ++ registerRequests (userId s) (capturedImages s)) s in
    setSuspended (acquiring s) (encoding s)
      (registering s ++
         [mkClosure (userId s) (length (capturedImages s))])
      (verifyEncoding s) (verifyInflight s) s.

(** How one registration request ends: when, and with what. *)
Record Settled := mkSettled {
  settledAt : nat;
  result : FetchResult unit
}.

(** The promise of one callback of the [map]: [None] when it fulfils, the
    message of the error when it rejects. *)
Definition submission (r : FetchResult unit) : option string :=
  match r with
  | NetworkError msg => Some msg
  | Responded resp =>
      if negb (ok resp)
      then Some ("Registration failed: " +:+ statusText resp)
      else match json resp with
           | inl msg => Some msg
           | inr _ => None
           end
  end.

(** [Promise.all] over [n] promises: fulfils when all do, and otherwise
    rejects with the reason of the promise that rejects first. *)
Definition earlier (acc : option (nat * string)) (x : nat * string)
    : option (nat * string) :=
  match acc with
  | None => Some x
  | Some y => if (x.1 <? y.1)%nat then Some x else acc
  end.

Definition rejections (n : nat) (o : nat → Settled) : list (nat * string) :=
  omap (λ i, (λ msg, (settledAt (o i), msg)) <$> submission (result (o i)))
       (seq 0 n).

Definition promiseAll (n : nat) (o : nat → Settled) : option string :=
  snd <$> foldl earlier None (rejections n o).

(** [registerUser], from the settled [Promise.all] on. *)
Definition registerUser_resume (c : RegisterClosure) (o : nat → Settled)
    (s : State) : State :=
  let s :=
    match promiseAll (closure_count c) o with
    | None =>
        setMessage
          (mkMessage ("User " +:+ closure_userId c +:+
                      " registered successfully with " +:+
                      pretty (closure_count c) +:+ " images") success) s
    | Some msg => setMessage (mkMessage ("Error: " +:+ msg) error) s
    end in
  setIsLoading false s.

(** *** Single-shot verification *)

(** [verifyFace], up to [await new Promise(... canvas.toBlob ...)]. *)
Definition verifyFace_click (s : State) : State :=
  match videoStreamRef s with
  | None => setMessage (mkMessage "Camera not available" error) s
  | Some _ =>
      let s := setIsLoading true s in
      let s := setMessage (mkMessage "Verifying..." info) s in
      match videoRef s, canvasRef s with
      | Some _, Some c =>
          if context2d c
          then setSuspended (acquiring s) (encoding s) (registering s)
                 (S (verifyEncoding s)) (verifyInflight s) s
          else setIsLoading false s        (* [return] through [finally] *)
      | _, _ => setIsLoading false s
      end
  end.

(** The [catch] and [finally] blocks of [verifyFace]. *)
Definition verifyFace_catch (msg : string) (s : State) : State :=
  let s := setMessage (mkMessage ("Error: " +:+ msg) error) s in
  setIsLoading false (setVerificationResult None s).

(** [verifyFace], from the blob to [await fetch(...)]. *)
Definition verifyFace_blob (b : option Blob) (s : State) : State :=
  match b with
  | None => verifyFace_catch "Failed to capture image for verification" s
  | Some b =>
      let s := setRequests (requests s ++ [PostVerify b "verify.jpg"]) s in
      setSuspended (acquiring s) (encoding s) (registering s)
        (verifyEncoding s) (S (verifyInflight s)) s
  end.

(** [`${result.user_id}`] *)
Definition template (o : option string) : string :=
  match o with Some x => x | None => "undefined" end.

(** [verifyFace], from the settled [fetch] on. *)
Definition verifyFace_resume (r : FetchResult VerificationResult) (s : State)
    : State :=
  match r with
  | NetworkError msg => verifyFace_catch msg s
  | Responded resp =>
      if negb (ok resp)
      then verifyFace_catch ("Verification failed: " +:+ statusText resp) s
      else
        match json resp with
        | inl msg => verifyFace_catch msg s
        | inr res =>
            let s := setVerificationResult (Some res) s in
            let s :=
              setMessage
                (if verified res
                 then mkMessage ("Verification successful! User: " +:+
                                 template (user_id res)) success
                 else mkMessage "Verification failed" error) s in
            setIsLoading false s
        end
  end.

(** What the event loop can deliver to the component. *)
Inductive Event :=
  | Effect                                      (* effect: [startCamera] *)
  | Cleanup                                     (* its clean-up: [stopCamera] *)
  | ClickToggle                                 (* button: [toggleCamera] *)
  | MediaSettled (r : MediaResult)              (* [getUserMedia] settles *)
  | Input (value : string)                      (* the user id field changes *)
  | ClickCapture                                (* button: [captureImage] *)
  | CaptureBlob (b : option Blob) (now : Z)     (* [toBlob] calls back *)
  | ClickRemove (imageId : Z)                   (* button: [removeImage] *)
  | ClickRegister                               (* button: [registerUser] *)
  | RegisterSettled (k : nat) (o : nat → Settled)
      (* [Promise.all] of the [k]-th pending registration settles *)
  | ClickVerify                                 (* button: [verifyFace] *)
  | VerifyBlob (b : option Blob)
  | VerifySettled (r : FetchResult VerificationResult)
  | ClickReset.                                 (* button: [resetForm] *)

(** One handler segment.  An event for which no continuation is waiting
    changes nothing. *)
Definition step (s : State) (e : Event) : State :=
  match e with
  | Effect => startCamera_request s
  | Cleanup => stopCamera s
  | ClickToggle => toggleCamera s
  | MediaSettled r =>
      match acquiring s with
      | S a =>
          startCamera_resume r
            (setSuspended a (encoding s) (registering s) (verifyEncoding s)
               (verifyInflight s) s)
      | O => s
      end
  | Input value => setUserId value s
  | ClickCapture => captureImage_click s
  | CaptureBlob b now =>
      match encoding s with
      | S n =>
          captureImage_blob b now
            (setSuspended (acquiring s) n (registering s) (verifyEncoding s)
               (verifyInflight s) s)
      | O => s
      end
  | ClickRemove imageId => removeImage imageId s
  | ClickRegister => registerUser_click s
  | RegisterSettled k o =>
      match registering s !! k with
      | Some c =>
          registerUser_resume c o
            (setSuspended (acquiring s) (encoding s)
               (delete k (registering s)) (verifyEncoding s)
               (verifyInflight s) s)
      | None => s
      end
  | ClickVerify => verifyFace_click s
  | VerifyBlob b =>
      match verifyEncoding s with
      | S n =>
          verifyFace_blob b
            (setSuspended (acquiring s) (encoding s) (registering s) n
               (verifyInflight s) s)
      | O => s
      end
  | VerifySettled r =>
      match verifyInflight s with
      | S n =>
          verifyFace_resume r
            (setSuspended (acquiring s) (encoding s) (registering s)
               (verifyEncoding s) n s)
      | O => s
      end
  | ClickReset => resetForm s
  end.

Definition run (s : State) (es : list Event) : State := foldl step s es.

(** A [startCamera] call whose [getUserMedia] settles before anything else
    happens, and a capture whose blob arrives before anything else happens. *)
Definition startCamera (r : MediaResult) : list Event :=
  [Effect; MediaSettled r].

Definition captureImage (b : option Blob) (now : Z) : list Event :=
  [ClickCapture; CaptureBlob b now].

Definition registerUser (o : nat → Settled) : list Event :=
  [ClickRegister; RegisterSettled 0 o].

(** *** The camera session manager seen on its own *)
Inductive Call :=
  | Start (r : MediaResult)
  | Stop.

Definition callEvents (c : Call) : list Event :=
  match c with
  | Start r => startCamera r
  | Stop => [Cleanup]
  end.

Definition calls (s : State) (cs : list Call) : State :=
  foldl (λ s c, run s (callEvents c)) s cs.

(** Every active stream is the one [videoStreamRef] points to. *)
Definition tracked (s : State) : Prop :=
  onlyActive (videoStreamRef s) (media s).

(** The preview URL of every pending image is registered in the store. *)
Definition previewsAlive (s : State) : Prop :=
  ∀ img, img ∈ capturedImages s → (url img, blob img) ∈ objectURLs s.

(** *** What the rendered buttons allow

    The [disabled] attributes of the three buttons. *)
Definition captureDisabled (s : State) : bool :=
  isLoading s || negb (stremLoaded s)
  || (10 <=? length (capturedImages s))%nat.

Definition verifyDisabled (s : State) : bool :=
  isLoading s || negb (stremLoaded s).

Definition registerDisabled (s : State) : bool :=
  isLoading s || (length (capturedImages s) =? 0)%nat
  || negb (truthy (trim (userId s))).

(** *** Commands that run to completion before the next one starts *)
Inductive Command :=
  | CmdStart (r : MediaResult)
  | CmdStop
  | CmdToggle (r : MediaResult)
  | CmdInput (value : string)
  | CmdCapture (b : option Blob) (now : Z)
  | CmdRemove (imageId : Z)
  | CmdReset
  | CmdRegister (o : nat → Settled)
  | CmdVerify (b : option Blob) (r : FetchResult VerificationResult).

Definition events (c : Command) : list Event :=
  match c with
  | CmdStart r => startCamera r
  | CmdStop => [Cleanup]
  | CmdToggle r => [ClickToggle; MediaSettled r]
  | CmdInput value => [Input value]
  | CmdCapture b now => captureImage b now
  | CmdRemove imageId => [ClickRemove imageId]
  | CmdReset => [ClickReset]
  | CmdRegister o => registerUser o
  | CmdVerify b r => [ClickVerify; VerifyBlob b; VerifySettled r]
  end.

Definition exec (s : State) (cs : list Command) : State :=
  foldl (λ s c, run s (events c)) s cs.

(** No continuation is suspended. *)
Definition calm (s : State) : Prop :=
  acquiring s = 0%nat ∧ encoding s = 0%nat ∧ registering s = []
  ∧ verifyEncoding s = 0%nat ∧ verifyInflight s = 0%nat.

(** Between two commands: nothing is suspended, the cap holds, the busy flag
    is down and every active stream is the one held. *)
Definition resting (s : State) : Prop :=
  calm s ∧ (length (capturedImages s) ≤ 10)%nat ∧ isLoading s = false
  ∧ tracked s.

End Register.

(** ** Concrete runs used as examples *)

Module AttendanceRuns.
Import Attendance.

(** The poller after a start command whose camera request is granted a
    stream with one video track. *)
Definition capturing : State :=
  run (init (mkCanvas true)) (startCommand (Granted 1)).

Definition frame : Blob := [].

Definition noMatch : FetchResult VerifyResponse :=
  Responded
    (mkResponse 200 "OK"
       (inr (mkVerify false EmptyString (QArith_base.Qmake 0 1)
               (Some "Face not recognized")))).

Definition matched : FetchResult VerifyResponse :=
  Responded
    (mkResponse 200 "OK"
       (inr (mkVerify true "u1" (QArith_base.Qmake 93 100) None))).

Definition serverError : FetchResult VerifyResponse :=
  Responded
    (mkResponse 500 "Internal Server Error"
       (inl "Unexpected end of JSON input")).

End AttendanceRuns.

Module RegisterRuns.
Import Register.

Definition frame : Blob := [].

(** The page after its camera has started and [n] photos have been taken one
    after the other, a millisecond apart. *)
Definition withImages (n : nat) : State :=
  run (init (mkCanvas true))
    (startCamera (Granted 1) ++
     (seq 0 n ≫= λ i, captureImage (Some frame) (1700000000000 + Z.of_nat i))).

(** The two photos of a double click: the second click comes before the blob
    of the first one is ready, and both blobs are ready in the same
    millisecond. *)
Definition doubleClick (now : Z) : list Event :=
  [ClickCapture; ClickCapture;
   CaptureBlob (Some frame) now; CaptureBlob (Some frame) now].

Definition accepted (t : nat) : Settled :=
  mkSettled t (Responded (mkResponse 200 "OK" (inr tt))).

Definition refused (t : nat) : Settled :=
  mkSettled t (Responded (mkResponse 500 "Internal Server Error" (inr tt))).

End RegisterRuns.

(** * Properties of media streams *)

Module BrowserFacts.

Lemma active_stopTracks (st : MediaStream) : active (stopTracks st) = false.
Proof.
  unfold active, stopTracks. apply bool_decide_eq_false_2.
  intros (x & Hx & _)%list_elem_of_fmap. discriminate.
Qed.

Lemma activeCount_app (m1 m2 : list MediaStream) :
  activeCount (m1 ++ m2) = (activeCount m1 + activeCount m2)%nat.
Proof. unfold activeCount. by rewrite filter_app, length_app. Qed.

Lemma activeCount_none (media : list MediaStream) :
  onlyActive None media → activeCount media = 0%nat.
Proof.
  unfold activeCount. induction media as [|st media IH]; intros H; [done|].
  rewrite filter_cons. destruct (decide (active st = true)) as [Ha|Ha].
  - by specialize (H 0%nat st eq_refl Ha).
  - apply IH. intros i st' Hi Hact. by specialize (H (S i) st' Hi Hact).
Qed.

(** At most one stream is active when every active stream is the referenced
    one. *)
Lemma activeCount_onlyActive (ref : option StreamRef)
    (media : list MediaStream) :
  onlyActive ref media → (activeCount media ≤ 1)%nat.
Proof.
  revert ref. unfold activeCount.
  induction media as [|st media IH]; intros ref H; [cbn; lia|].
  rewrite filter_cons. destruct (decide (active st = true)) as [Ha|Ha].
  - cbn [length]. pose proof (H 0%nat st eq_refl Ha) as ->.
    fold (activeCount media). rewrite activeCount_none; [lia|].
    intros i st' Hi Hact. pose proof (H (S i) st' Hi Hact). discriminate.
  - apply (IH (pred <$> ref)). intros i st' Hi Hact.
    by rewrite (H (S i) st' Hi Hact).
Qed.

Lemma onlyActive_stop (r : StreamRef) (ref : option StreamRef)
    (media : list MediaStream) :
  onlyActive (Some r) media → onlyActive ref (alter stopTracks r media).
Proof.
  intros H i st Hi Hact. exfalso.
  rewrite list_lookup_alter in Hi. case_decide as Hd.
  - apply fmap_Some in Hi as (st0 & _ & ->).
    by rewrite active_stopTracks in Hact.
  - specialize (H i st Hi Hact). congruence.
Qed.

Lemma onlyActive_weaken (ref : option StreamRef) (media : list MediaStream) :
  onlyActive None media → onlyActive ref media.
Proof. intros H i st Hi Hact. by specialize (H i st Hi Hact). Qed.

Lemma onlyActive_fresh (n : nat) (media : list MediaStream) :
  onlyActive None media →
  onlyActive (Some (length media)) (media ++ [freshStream n]).
Proof.
  intros H i st Hi Hact.
  destruct (decide (i < length media)%nat) as [Hlt|Hge].
  - rewrite lookup_app_l in Hi by done. by specialize (H i st Hi Hact).
  - apply lookup_lt_Some in Hi as Hlen. rewrite length_app in Hlen.
    cbn in Hlen. f_equal. lia.
Qed.

End BrowserFacts.

(** * Properties of the attendance page *)

Module AttendanceFacts.
Import Attendance.

(** The commit after a handler only touches [videoRef]. *)
Lemma commit_frame (s : State) :
  isCapturing (commit s) = isCapturing s
  ∧ attendanceLog (commit s) = attendanceLog s
  ∧ error (commit s) = error s
  ∧ processing (commit s) = processing s
  ∧ streamRef (commit s) = streamRef s
  ∧ canvasRef (commit s) = canvasRef s
  ∧ intervalRef (commit s) = intervalRef s
  ∧ media (commit s) = media s
  ∧ activeTimers (commit s) = activeTimers s
  ∧ toasts (commit s) = toasts s
  ∧ requests (commit s) = requests s
  ∧ encoding (commit s) = encoding s
  ∧ inflight (commit s) = inflight s.
Proof.
  unfold commit. destruct (isCapturing s) eqn:E, (videoRef s); simpl; auto 20.
Qed.

(** While capturing, a committed state keeps its video element. *)
Lemma commit_capturing (s : State) (v : VideoElement) :
  isCapturing s = true → videoRef s = Some v → commit s = s.
Proof. unfold commit. intros -> ->. reflexivity. Qed.

Lemma commit_idle (s : State) :
  isCapturing s = false → videoRef (commit s) = None.
Proof. unfold commit. intros ->. reflexivity. Qed.

(** *** A verification request that fails *)

(** A submission that fails leaves everything but [processing] and [error]
    as it was, and reports [false]. *)
Lemma sendFrame_resume_error (r : FetchResult VerifyResponse)
    (msg now : string) (s : State) :
  verifyOutcome r = inl msg →
  sendFrame_resume r now s =
    (false,
     setError (Some ("Error verifying face: " +:+ msg))
       (setProcessing false s)).
Proof. unfold sendFrame_resume. intros ->. reflexivity. Qed.

(** A response outside 200-299 is one of the failures. *)
Lemma verifyOutcome_not_ok (resp : Response VerifyResponse) :
  ok resp = false →
  verifyOutcome (Responded resp) =
    inl ("Server responded with " +:+ pretty (status resp)).
Proof. unfold verifyOutcome. intros ->. reflexivity. Qed.

Lemma ok_range {A} (resp : Response A) :
  ok resp = true ↔ 200 ≤ status resp ≤ 299.
Proof. unfold ok. rewrite andb_true_iff, !Z.leb_le. tauto. Qed.

(** The state in which a failed submission leaves the component. *)
Lemma step_submission_error (s : State) (r : FetchResult VerifyResponse)
    (msg now : string) (n : nat) :
  inflight s = S n →
  verifyOutcome r = inl msg →
  step s (FetchSettled r now) =
    commit (setError (Some ("Error verifying face: " +:+ msg))
              (setProcessing false
                 (setSuspended (delayed s) (acquiring s) (encoding s) n s))).
Proof.
  intros Hn Hr. unfold step, handle. rewrite Hn.
  rewrite (sendFrame_resume_error r msg now _ Hr). reflexivity.
Qed.

(** C8.  A [POST /verify] response whose status is outside 200-299 makes the
    attempt fail: the error banner shows "Error verifying face: Server
    responded with <status>", nothing is appended to the attendance log, no
    toast is shown and the busy indicator is switched off. *)
Theorem C8_verify_non_2xx_is_transport_error :
  ∀ (s : State) (resp : Response VerifyResponse) (now : string),
    (0 < inflight s)%nat →
    ¬ (200 ≤ status resp ≤ 299) →
    let s' := step s (FetchSettled (Responded resp) now) in
    error s' =
      Some ("Error verifying face: Server responded with " +:+
            pretty (status resp))
    ∧ attendanceLog s' = attendanceLog s
    ∧ toasts s' = toasts s
    ∧ processing s' = false.
Proof.
  intros s resp now Hin Hst s'.
  assert (Hok : ok resp = false).
  { destruct (ok resp) eqn:E; [|done]. apply ok_range in E. done. }
  destruct (inflight s) as [|n] eqn:Hn; [lia|].
  subst s'.
  rewrite (step_submission_error s _ _ now n Hn (verifyOutcome_not_ok _ Hok)).
  destruct (commit_frame
    (setError
       (Some ("Error verifying face: " +:+
              "Server responded with " +:+ pretty (status resp)))
       (setProcessing false
          (setSuspended (delayed s) (acquiring s) (encoding s) n s))))
    as (_ & -> & -> & -> & _ & _ & _ & _ & _ & -> & _).
  done.
Qed.

(** C8 on a response with status 500. *)
Lemma C8_verify_non_2xx_witness :
  let s' := run AttendanceRuns.capturing
              (tick 1 (Some AttendanceRuns.frame) AttendanceRuns.serverError
                 "t1") in
  error s' = Some "Error verifying face: Server responded with 500"
  ∧ attendanceLog s' = [].
Proof.
  pose proof (C8_verify_non_2xx_is_transport_error
                (run AttendanceRuns.capturing (fire 1 AttendanceRuns.frame))
                (mkResponse 500 "Internal Server Error"
                   (inl "Unexpected end of JSON input")) "t1") as H.
  lapply H; [clear H; intros H | vm_compute; lia].
  lapply H;
    [clear H; intros H | vm_compute; intros [_ H']; apply H'; reflexivity].
  vm_compute in H. vm_compute.
  destruct H as (H1 & H2 & _).
  split; assumption.
Defined.

(** *** One tick, from the timer to the settled response *)

(** A tick whose response decodes to [verified = false]: the message of the
    response is shown as an error toast and nothing else changes, apart from
    the request having been sent. *)
Lemma tick_not_verified log err proc v sref c id media timers next tsts reqs
    del acq enc inf b r d now :
  context2d c = true → id ∈ timers →
  verifyOutcome r = inr d → verified d = false →
  run (mkState true log err proc (Some v) sref (Some c) (Some id) media
         timers next tsts reqs del acq enc inf)
      (tick id (Some b) r now)
  = mkState true log err false (Some v) sref (Some c) (Some id) media
      timers next (tsts ++ [ToastError (message d)])
      (reqs ++ [PostVerify b "capture.jpg"]) del acq enc inf.
Proof.
  intros Hc Hid Hr Hd.
  unfold run, tick, step, handle, captureFrame, sendFrame_resume.
  cbn [foldl activeTimers]. rewrite (bool_decide_eq_true_2 _ Hid).
  cbn -[bool_decide verifyOutcome String.append]. rewrite Hc.
  cbn -[bool_decide verifyOutcome String.append]. rewrite Hr, Hd.
  reflexivity.
Qed.

(** A tick whose response decodes to [verified = true]: a record is put at
    the head of the log, a success toast is shown, and [stopAttendance]
    runs. *)
Lemma tick_verified log err proc v sref c id media timers next tsts reqs
    del acq enc inf b r d now :
  context2d c = true → id ∈ timers →
  verifyOutcome r = inr d → verified d = true →
  run (mkState true log err proc (Some v) sref (Some c) (Some id) media
         timers next tsts reqs del acq enc inf)
      (tick id (Some b) r now)
  = mkState false
      (mkRecord (user_id d) now (confidence_score d) :: log) err false None
      None (Some c) None
      (match sref with
       | Some ref => alter stopTracks ref media
       | None => media
       end)
      (filter (λ t, t ≠ id) timers) next
      (tsts ++ [ToastSuccess ("Successfully recorded attendance for " +:+
                              user_id d)])
      (reqs ++ [PostVerify b "capture.jpg"]) del acq enc inf.
Proof.
  intros Hc Hid Hr Hd.
  unfold run, tick, step, handle, captureFrame, sendFrame_resume.
  cbn [foldl activeTimers]. rewrite (bool_decide_eq_true_2 _ Hid).
  cbn -[bool_decide verifyOutcome String.append]. rewrite Hc.
  cbn -[bool_decide verifyOutcome String.append]. rewrite Hr, Hd.
  destruct sref; reflexivity.
Qed.

(** C4.  From any capturing state with a video element, a canvas and the
    armed interval, three ticks answered [verified: false], [verified: false],
    [verified: true] leave the log untouched after the first and the second
    tick (each only shows the message of the response as an error toast) and
    put exactly one record at its head after the third; the third tick also
    brings the poller to Idle: the interval is cleared, the tracks of the
    camera stream are stopped, and the stream and the video element are let
    go. *)
Theorem C4_false_false_true_appends_one_record :
  ∀ (s : State) (id : nat) (v : VideoElement) (c : Canvas)
    (b1 b2 b3 : Blob) (r1 r2 r3 : FetchResult VerifyResponse)
    (d1 d2 d3 : VerifyResponse) (t1 t2 t3 : string),
    isCapturing s = true →
    videoRef s = Some v →
    canvasRef s = Some c → context2d c = true →
    intervalRef s = Some id → id ∈ activeTimers s →
    verifyOutcome r1 = inr d1 → verified d1 = false →
    verifyOutcome r2 = inr d2 → verified d2 = false →
    verifyOutcome r3 = inr d3 → verified d3 = true →
    let s1 := run s (tick id (Some b1) r1 t1) in
    let s2 := run s1 (tick id (Some b2) r2 t2) in
    let s3 := run s2 (tick id (Some b3) r3 t3) in
    (attendanceLog s1 = attendanceLog s ∧ phase s1 = Capturing
     ∧ toasts s1 = toasts s ++ [ToastError (message d1)])
    ∧ (attendanceLog s2 = attendanceLog s ∧ phase s2 = Capturing
       ∧ toasts s2 = toasts s1 ++ [ToastError (message d2)])
    ∧ attendanceLog s3 =
        (mkRecord (user_id d3) t3 (confidence_score d3) :: attendanceLog s)
    ∧ length (attendanceLog s3) = S (length (attendanceLog s))
    ∧ phase s3 = Idle
    ∧ intervalRef s3 = None ∧ (id ∉ activeTimers s3)
    ∧ streamRef s3 = None ∧ videoRef s3 = None
    ∧ media s3 =
        match streamRef s with
        | Some ref => alter stopTracks ref (media s)
        | None => media s
        end.
Proof.
  intros [cap log err proc vr sref cr ir md timers next tsts reqs
          del acq enc inf] id v c b1 b2 b3 r1 r2 r3 d1 d2 d3 t1 t2 t3.
  cbn [isCapturing videoRef canvasRef intervalRef activeTimers].
  intros -> -> -> Hc -> Hid Hr1 Hd1 Hr2 Hd2 Hr3 Hd3.
  rewrite (tick_not_verified _ _ _ _ _ _ _ _ _ _ _ _ _ _ _ _ b1 r1 d1 t1)
    by done.
  rewrite (tick_not_verified _ _ _ _ _ _ _ _ _ _ _ _ _ _ _ _ b2 r2 d2 t2)
    by done.
  rewrite (tick_verified _ _ _ _ _ _ _ _ _ _ _ _ _ _ _ _ b3 r3 d3 t3)
    by done.
  cbn [attendanceLog toasts intervalRef activeTimers streamRef videoRef
       media length].
  unfold phase; cbn [isCapturing].
  repeat split; try done.
  intros [Hne _]%list_elem_of_filter. done.
Qed.

(** C4 on the run that starts the poller and answers no, no, yes. *)
Lemma C4_false_false_true_witness :
  let s1 := run AttendanceRuns.capturing
              (tick 1 (Some AttendanceRuns.frame) AttendanceRuns.noMatch "t1") in
  let s2 := run s1
              (tick 1 (Some AttendanceRuns.frame) AttendanceRuns.noMatch "t2") in
  let s3 := run s2
              (tick 1 (Some AttendanceRuns.frame) AttendanceRuns.matched "t3") in
  attendanceLog s1 = [] ∧ attendanceLog s2 = []
  ∧ attendanceLog s3 = [mkRecord "u1" "t3" (QArith_base.Qmake 93 100)]
  ∧ phase s3 = Idle.
Proof.
  pose proof (C4_false_false_true_appends_one_record
                AttendanceRuns.capturing 1 (mkVideo (Some 0%nat) 2 false)
                (mkCanvas true)
                AttendanceRuns.frame AttendanceRuns.frame AttendanceRuns.frame
                AttendanceRuns.noMatch AttendanceRuns.noMatch
                AttendanceRuns.matched
                (mkVerify false EmptyString (QArith_base.Qmake 0 1)
                   (Some "Face not recognized"))
                (mkVerify false EmptyString (QArith_base.Qmake 0 1)
                   (Some "Face not recognized"))
                (mkVerify true "u1" (QArith_base.Qmake 93 100) None)
                "t1" "t2" "t3") as H.
  do 5 (lapply H; [clear H; intros H | vm_compute; reflexivity]).
  lapply H; [clear H; intros H | vm_compute; constructor].
  do 6 (lapply H; [clear H; intros H | vm_compute; reflexivity]).
  vm_compute in H. vm_compute.
  destruct H as ((H1 & _) & (H2 & _) & H3 & _ & H4 & _).
  repeat split; assumption.
Defined.

(** *** Errors and the polling loop *)

(** A timer firing with a frame, the response still outstanding: one more
    request is sent and one more request is in flight; the poller itself is
    as before. *)
Lemma fire_submits (s : State) (id : nat) (b : Blob) :
  isCapturing s = true → id ∈ activeTimers s → captureFrame s = true →
  let s' := run s (fire id b) in
  requests s' = requests s ++ [PostVerify b "capture.jpg"]
  ∧ inflight s' = S (inflight s)
  ∧ encoding s' = encoding s
  ∧ isCapturing s' = true
  ∧ activeTimers s' = activeTimers s
  ∧ captureFrame s' = true.
Proof.
  destruct s as [cap log err proc vr sref cr ir md timers next tsts reqs
                 del acq enc inf].
  unfold captureFrame. cbn [isCapturing activeTimers videoRef canvasRef].
  intros -> Hid Hcap.
  destruct vr as [v|]; [|done]. destruct cr as [c|]; [|done].
  unfold run, fire, step, handle, captureFrame.
  cbn [foldl activeTimers]. rewrite (bool_decide_eq_true_2 _ Hid).
  cbn -[bool_decide String.append]. rewrite Hcap.
  cbn -[bool_decide String.append]. done.
Qed.

(** A rejected [getUserMedia] is reported in the error banner. *)
Lemma camera_error_surfaces (s : State) (msg : string) :
  (0 < acquiring s)%nat →
  error (step s (MediaSettled (Denied msg))) =
    Some ("Could not access camera: " +:+ msg).
Proof.
  intros Hacq. unfold step.
  destruct (commit_frame (handle (MediaSettled (Denied msg)) s))
    as (_ & _ & -> & _).
  unfold handle. destruct (acquiring s) as [|a]; [lia|].
  unfold startAttendance_ready, startCamera_resume, armInterval.
  cbn -[String.append].
  destruct (videoRef s) as [[src [|[|rs]] h]|]; reflexivity.
Qed.

(** So is a stream that arrives when the video element is gone. *)
Lemma camera_without_video_surfaces (s : State) (n : nat) :
  (0 < acquiring s)%nat → videoRef s = None →
  error (step s (MediaSettled (Granted n))) =
    Some "Could not access camera: Video element not available".
Proof.
  intros Hacq Hv. unfold step.
  destruct (commit_frame (handle (MediaSettled (Granted n)) s))
    as (_ & _ & -> & _).
  destruct s as [cap log err proc vr sref cr ir md timers next tsts reqs
                 del acq enc inf].
  cbn [acquiring videoRef] in Hacq, Hv. subst vr.
  destruct acq as [|a]; [lia|]. reflexivity.
Qed.

(** A failed submission is reported in the error banner and leaves the
    poller where it was. *)
Lemma submission_error_surfaces (s : State) (r : FetchResult VerifyResponse)
    (msg now : string) :
  (0 < inflight s)%nat →
  verifyOutcome r = inl msg →
  let s' := step s (FetchSettled r now) in
  error s' = Some ("Error verifying face: " +:+ msg)
  ∧ isCapturing s' = isCapturing s
  ∧ intervalRef s' = intervalRef s
  ∧ activeTimers s' = activeTimers s
  ∧ streamRef s' = streamRef s
  ∧ media s' = media s
  ∧ attendanceLog s' = attendanceLog s.
Proof.
  intros Hin Hr s'. subst s'.
  destruct (inflight s) as [|n] eqn:Hn; [lia|].
  rewrite (step_submission_error s r msg now n Hn Hr).
  destruct (commit_frame
    (setError (Some ("Error verifying face: " +:+ msg))
       (setProcessing false
          (setSuspended (delayed s) (acquiring s) (encoding s) n s))))
    as (-> & -> & -> & _ & -> & _ & -> & -> & -> & _).
  done.
Qed.

(** C1, as the code has it.  Every error of the camera start (a rejected
    [getUserMedia], a video element that is gone when the stream arrives)
    and every error of a verification submission (network failure, status
    outside 200-299, undecodable body) is put in the error banner.  A
    submission error does not stop the poller: the phase, the interval, the
    camera stream and the log are as before, and when the poller is
    capturing the next firing of the timer submits again. *)
Theorem C1_errors_surface_and_polling_goes_on :
  (∀ (s : State) (msg : string),
     (0 < acquiring s)%nat →
     error (step s (MediaSettled (Denied msg))) =
       Some ("Could not access camera: " +:+ msg))
  ∧ (∀ (s : State) (n : nat),
       (0 < acquiring s)%nat → videoRef s = None →
       error (step s (MediaSettled (Granted n))) =
         Some "Could not access camera: Video element not available")
  ∧ (∀ (s : State) (r : FetchResult VerifyResponse) (msg now : string),
       (0 < inflight s)%nat →
       verifyOutcome r = inl msg →
       let s' := step s (FetchSettled r now) in
       error s' = Some ("Error verifying face: " +:+ msg)
       ∧ phase s' = phase s
       ∧ intervalRef s' = intervalRef s
       ∧ activeTimers s' = activeTimers s
       ∧ streamRef s' = streamRef s
       ∧ media s' = media s
       ∧ attendanceLog s' = attendanceLog s
       ∧ (∀ (id : nat) (b : Blob),
            phase s = Capturing →
            id ∈ activeTimers s →
            captureFrame s = true →
            requests (run s' (fire id b)) =
              requests s' ++ [PostVerify b "capture.jpg"])).
Proof.
  split; [exact camera_error_surfaces|].
  split; [exact camera_without_video_surfaces|].
  intros s r msg now Hin Hr s'.
  destruct (submission_error_surfaces s r msg now Hin Hr)
    as (He & Hc' & Hi & Ht & Hs & Hm & Hl).
  fold s' in He, Hc', Hi, Ht, Hs, Hm, Hl.
  repeat (split; [first [assumption | by unfold phase; rewrite Hc']|]).
  intros id b Hph Hid Hcap.
  assert (Hc : isCapturing s = true).
  { unfold phase in Hph. by destruct (isCapturing s). }
  assert (Hcap' : captureFrame s' = true).
  { subst s'. destruct (inflight s) as [|n] eqn:Hn; [lia|].
    rewrite (step_submission_error s r msg now n Hn Hr).
    unfold captureFrame in Hcap.
    destruct (videoRef s) as [v|] eqn:Hv; [|done].
    erewrite commit_capturing; [| exact Hc | exact Hv].
    unfold captureFrame. cbn [videoRef canvasRef setError setProcessing
                               setSuspended]. rewrite Hv. exact Hcap. }
  apply fire_submits; [by rewrite Hc', Hc | by rewrite Ht | exact Hcap'].
Qed.

(** C1 at concrete runs: a denied camera; a stream that arrives after the
    stop button has removed the video element; and a response with status
    500, after which the poller is still capturing and the next firing of
    the timer sends a second request. *)
Lemma C1_errors_surface_witness :
  error (step (run (init (mkCanvas true)) [ClickStart; DelayElapsed])
           (MediaSettled (Denied "Permission denied"))) =
    Some "Could not access camera: Permission denied"
  ∧ error (step (run (init (mkCanvas true))
                   [ClickStart; DelayElapsed; ClickStop])
             (MediaSettled (Granted 1%nat))) =
      Some "Could not access camera: Video element not available"
  ∧ (let s := run AttendanceRuns.capturing
                (fire 1%nat AttendanceRuns.frame) in
     let s' := step s (FetchSettled AttendanceRuns.serverError "t1") in
     phase s' = Capturing
     ∧ requests (run s' (fire 1%nat AttendanceRuns.frame)) =
         requests s' ++ [PostVerify AttendanceRuns.frame "capture.jpg"]).
Proof.
  destruct C1_errors_surface_and_polling_goes_on as (H1 & H2 & H3).
  split; [|split].
  - rewrite (H1 (run (init (mkCanvas true)) [ClickStart; DelayElapsed])
               "Permission denied").
    + vm_compute. reflexivity.
    + vm_compute. lia.
  - apply (H2 (run (init (mkCanvas true))
                 [ClickStart; DelayElapsed; ClickStop]) 1%nat).
    + vm_compute. lia.
    + vm_compute. reflexivity.
  - intros s s'.
    destruct (H3 s AttendanceRuns.serverError "Server responded with 500"
                "t1") as (_ & Hp & _ & _ & _ & _ & _ & Hn).
    + vm_compute. lia.
    + vm_compute. reflexivity.
    + fold s' in Hp, Hn. split.
      * rewrite Hp. vm_compute. reflexivity.
      * apply Hn.
        -- vm_compute. reflexivity.
        -- vm_compute. constructor.
        -- vm_compute. reflexivity.
Defined.

(** C1 as stated fails: after a response with status 500 the error is shown,
    but the poller is still Capturing, its interval is still armed, the
    camera stream is still live, and the next firing of the timer submits
    again. *)
Lemma C1_submission_error_keeps_polling :
  let s := run AttendanceRuns.capturing
             (tick 1%nat (Some AttendanceRuns.frame) AttendanceRuns.serverError
                "t1") in
  error s = Some "Error verifying face: Server responded with 500"
  ∧ phase s ≠ Idle
  ∧ intervalRef s = Some 1%nat
  ∧ activeTimers s = [1%nat]
  ∧ media s = [[live]]
  ∧ requests (run s (fire 1%nat AttendanceRuns.frame)) =
      [PostVerify AttendanceRuns.frame "capture.jpg";
       PostVerify AttendanceRuns.frame "capture.jpg"].
Proof. vm_compute. repeat split; try reflexivity. discriminate. Qed.

(** After a denied camera the start command leaves the poller in Capturing
    with the error shown; [startAttendance] stays suspended on the video
    that never loads, and no interval is armed. *)
Remark denied_camera_stays_capturing :
  let s := run (init (mkCanvas true))
             (startCommand (Denied "Permission denied")) in
  error s = Some "Could not access camera: Permission denied"
  ∧ phase s = Capturing
  ∧ intervalRef s = None
  ∧ activeTimers s = [].
Proof. vm_compute. repeat split; reflexivity. Qed.

(** *** Requests in flight *)

Lemma run_app (s : State) (es1 es2 : list Event) :
  run s (es1 ++ es2) = run (run s es1) es2.
Proof. apply foldl_app. Qed.

Lemma trace_app (P : State → Prop) (s : State) (es1 es2 : list Event) :
  Forall P (trace s es1) → Forall P (trace (run s es1) es2) →
  Forall P (trace s (es1 ++ es2)).
Proof.
  revert s. induction es1 as [|e es1 IH]; intros s H1 H2; cbn in *.
  - exact H2.
  - inversion H1; subst. constructor; [done|]. by apply IH.
Qed.

(** What one event does to the two counters of the tick continuations. *)
Lemma step_counters (s : State) (e : Event) :
  let s' := step s e in
  match e with
  | TimerFired _ =>
      inflight s' = inflight s
      ∧ (encoding s' = encoding s ∨ encoding s' = S (encoding s))
  | BlobReady _ =>
      (encoding s = 0%nat ∧ encoding s' = 0%nat ∧ inflight s' = inflight s)
      ∨ (encoding s = S (encoding s')
         ∧ (inflight s' = inflight s ∨ inflight s' = S (inflight s)))
  | FetchSettled _ _ =>
      encoding s' = encoding s ∧ inflight s' = pred (inflight s)
  | _ => encoding s' = encoding s ∧ inflight s' = inflight s
  end.
Proof.
  intros s'. subst s'. unfold step.
  destruct (commit_frame (handle e s))
    as (_ & _ & _ & _ & _ & _ & _ & _ & _ & _ & _ & -> & ->).
  destruct s as [cap log err proc vr sref cr ir md timers next tsts reqs
                 del acq enc inf].
  destruct e as [| |r| | |id|blob|r now]; unfold handle.
  - unfold startAttendance_click. cbn. by destruct cap.
  - cbn. by destruct del.
  - cbn. destruct acq as [|a]; [done|].
    unfold startAttendance_ready, startCamera_resume.
    destruct r as [n|msg]; cbn -[String.append];
      destruct vr as [[src [|[|rs]] h]|]; done.
  - unfold loadedData. cbn.
    destruct vr as [[[src|] rs [|]]|]; done.
  - unfold stopAttendance, stopCamera. cbn.
    destruct sref, vr, ir; done.
  - cbn -[bool_decide]. destruct (bool_decide (id ∈ timers)); [|by auto].
    unfold captureFrame. cbn. destruct vr, cr as [[[|]]|]; auto.
  - cbn. destruct enc as [|n]; [by left|]. right.
    destruct blob; cbn; auto.
  - cbn -[sendFrame_resume]. destruct inf as [|n]; [done|].
    unfold sendFrame_resume.
    destruct (verifyOutcome r) as [msg|data]; cbn -[String.append]; [done|].
    destruct (verified data); cbn -[String.append]; [|done].
    unfold stopAttendance, stopCamera. cbn -[String.append].
    destruct sref, vr, ir; done.
Qed.

Lemma tick_quiet (s : State) (id : nat) (blob : option Blob)
    (r : FetchResult VerifyResponse) (now : string) :
  quiet s →
  Forall (λ s', (inflight s' ≤ 1)%nat) (trace s (tick id blob r now))
  ∧ quiet (run s (tick id blob r now)).
Proof.
  intros [He Hi]. unfold tick, run. cbn [trace foldl].
  pose proof (step_counters s (TimerFired id)) as H1.
  set (s1 := step s (TimerFired id)) in *.
  pose proof (step_counters s1 (BlobReady blob)) as H2.
  set (s2 := step s1 (BlobReady blob)) in *.
  pose proof (step_counters s2 (FetchSettled r now)) as H3.
  set (s3 := step s2 (FetchSettled r now)) in *.
  cbv zeta in H1, H2, H3. unfold quiet.
  repeat rewrite Forall_cons. rewrite Forall_nil. cbv beta.
  destruct H1 as [H1 [H1'|H1']], H2 as [H2|[H2 [H2'|H2']]], H3 as [H3 H3'];
    lia.
Qed.

Lemma other_quiet (s : State) (es : list Event) :
  Forall (λ e, match e with
               | TimerFired _ | BlobReady _ | FetchSettled _ _ => False
               | _ => True
               end) es →
  quiet s →
  Forall (λ s', (inflight s' ≤ 1)%nat) (trace s es) ∧ quiet (run s es).
Proof.
  intros Hes. revert s. induction Hes as [|e es He _ IH]; intros s Hq.
  - cbn. split; [|done]. constructor; [|done]. destruct Hq as [_ ->]. lia.
  - cbn [trace run foldl].
    assert (Hq' : quiet (step s e)).
    { pose proof (step_counters s e) as H. destruct Hq as [H1 H2].
      destruct e; try done; cbv zeta in H; unfold quiet; lia. }
    destruct (IH _ Hq') as [Ht Hr]. split; [|exact Hr].
    constructor; [|exact Ht]. destruct Hq as [_ ->]. lia.
Qed.

Lemma command_quiet (s : State) (c : Command) :
  quiet s →
  Forall (λ s', (inflight s' ≤ 1)%nat) (trace s (events c))
  ∧ quiet (run s (events c)).
Proof.
  destruct c as [r| |id blob r now]; cbn [events].
  - apply other_quiet. unfold startCommand. repeat constructor.
  - apply other_quiet. repeat constructor.
  - apply tick_quiet.
Qed.

Lemma exec_events (s : State) (cs : list Command) :
  exec s cs = run s (cs ≫= events).
Proof.
  revert s. induction cs as [|c cs IH]; intros s; [done|].
  cbn [exec foldl]. change (foldl _ ?a cs) with (exec a cs).
  rewrite IH. change ((c :: cs) ≫= events) with (events c ++ (cs ≫= events)).
  by rewrite run_app.
Qed.

Lemma fires_in_flight (s : State) (id : nat) (bs : list Blob) :
  isCapturing s = true → id ∈ activeTimers s → captureFrame s = true →
  inflight (run s (bs ≫= fire id)) = (inflight s + length bs)%nat.
Proof.
  revert s. induction bs as [|b bs IH]; intros s Hc Hid Hcap.
  - cbn. lia.
  - change ((b :: bs) ≫= fire id) with (fire id b ++ (bs ≫= fire id)).
    rewrite run_app.
    destruct (fire_submits s id b Hc Hid Hcap) as (_ & Hi & _ & Hc' & Ht & Hf).
    rewrite IH; [| exact Hc' | by rewrite Ht | exact Hf].
    rewrite Hi. cbn [length]. lia.
Qed.

(** One event of a serialised run: the two counters of the tick
    continuations never add up to more than one. *)
Lemma step_serialised (s : State) (e : Event) :
  match e with TimerFired _ => quiet s | _ => True end →
  (encoding s + inflight s ≤ 1)%nat →
  (encoding (step s e) + inflight (step s e) ≤ 1)%nat.
Proof.
  intros He Hs. pose proof (step_counters s e) as H. cbv zeta in H.
  destruct e; try lia. destruct He as [He Hi]. lia.
Qed.

Lemma run_serialised (s : State) (es : list Event) :
  (encoding s + inflight s ≤ 1)%nat → serialised s es →
  Forall (λ s', (inflight s' ≤ 1)%nat) (trace s es).
Proof.
  revert s. induction es as [|e es IH]; intros s Hs Hes; cbn [trace].
  - constructor; [lia|done].
  - destruct Hes as [He Hes]. constructor; [lia|].
    apply IH; [|exact Hes]. by apply step_serialised.
Qed.

(** C9, as the code has it.  The interval timer does not wait for a tick to
    finish: each firing with a frame sends a request whatever is still
    outstanding, so [k] firings with no response in between leave [k] more
    requests in flight.  Stopping the loop changes nothing about the ticks
    that are under way.  At most one request is in flight at every point of
    a run in which every firing of a timer finds the ticks before it
    completed; runs of whole commands (start, stop, tick), each one settled
    before the next begins, are of this kind, and end with no request in
    flight. *)
Theorem C9_ticks_overlap_unless_settled :
  (∀ (s : State) (id : nat) (bs : list Blob),
     isCapturing s = true → id ∈ activeTimers s → captureFrame s = true →
     inflight (run s (bs ≫= fire id)) = (inflight s + length bs)%nat)
  ∧ (∀ (s : State),
       encoding (step s ClickStop) = encoding s
       ∧ inflight (step s ClickStop) = inflight s)
  ∧ (∀ (s : State) (es : list Event),
       quiet s → serialised s es →
       Forall (λ s', (inflight s' ≤ 1)%nat) (trace s es))
  ∧ (∀ (s : State) (cs : list Command),
       encoding s = 0%nat → inflight s = 0%nat →
       serialised s (cs ≫= events)
       ∧ Forall (λ s', (inflight s' ≤ 1)%nat) (trace s (cs ≫= events))
       ∧ inflight (exec s cs) = 0%nat).
Proof.
  split; [exact fires_in_flight|].
  split; [intros s; exact (step_counters s ClickStop)|].
  split.
  { intros s es [He Hi] Hes. apply run_serialised; [lia|exact Hes]. }
  intros s cs He Hi. rewrite exec_events.
  assert (Hq : quiet s) by done. clear He Hi.
  revert s Hq. induction cs as [|c cs IH]; intros s Hq.
  - cbn. destruct Hq as [_ Hi]. split; [done|]. split; [|done].
    constructor; [lia|done].
  - change ((c :: cs) ≫= events) with (events c ++ (cs ≫= events)).
    destruct (command_quiet s c Hq) as [Ht Hq'].
    destruct (IH _ Hq') as (Hs' & Ht' & Hi').
    rewrite run_app. split; [|split; [by apply trace_app | exact Hi']].
    destruct c as [r| |id blob r now]; cbn [events app startCommand tick
      serialised]; unfold run in Hs'; cbn [foldl] in Hs'; done.
Qed.

(** C9 at concrete runs: three firings without a response; a run in which
    the stop button is pressed while the tick is being encoded and the next
    timer fires after the response; and a run of settled commands. *)
Lemma C9_ticks_overlap_witness :
  inflight (run AttendanceRuns.capturing
              ([AttendanceRuns.frame; AttendanceRuns.frame;
                AttendanceRuns.frame] ≫= fire 1%nat)) = 3%nat
  ∧ Forall (λ s', (inflight s' ≤ 1)%nat)
      (trace (init (mkCanvas true))
         (startCommand (Granted 1%nat) ++
          [TimerFired 1%nat; ClickStop; BlobReady (Some AttendanceRuns.frame);
           FetchSettled AttendanceRuns.noMatch "t1"] ++
          startCommand (Granted 1%nat) ++
          [TimerFired 2%nat]))
  ∧ inflight (exec (init (mkCanvas true))
                [StartCmd (Granted 1%nat);
                 TickCmd 1%nat (Some AttendanceRuns.frame)
                   AttendanceRuns.noMatch "t1";
                 TickCmd 1%nat (Some AttendanceRuns.frame)
                   AttendanceRuns.matched "t2"]) = 0%nat.
Proof.
  destruct C9_ticks_overlap_unless_settled as (H1 & _ & H3 & H4).
  split; [|split].
  - rewrite (H1 AttendanceRuns.capturing 1%nat
               [AttendanceRuns.frame; AttendanceRuns.frame;
                AttendanceRuns.frame]).
    + vm_compute. reflexivity.
    + vm_compute. reflexivity.
    + vm_compute. constructor.
    + vm_compute. reflexivity.
  - apply H3.
    + vm_compute. split; reflexivity.
    + vm_compute. repeat split; reflexivity.
  - apply (H4 (init (mkCanvas true))).
    + vm_compute. reflexivity.
    + vm_compute. reflexivity.
Defined.

(** C9 as stated fails: two firings of the timer before the first response
    arrives leave two verification requests in flight; and so do a firing
    before the loop is stopped and a firing of the loop started next, since
    stopping the loop leaves the request of the first one in flight. *)
Lemma C9_two_requests_in_flight :
  (let s := run AttendanceRuns.capturing
              (fire 1%nat AttendanceRuns.frame ++
               fire 1%nat AttendanceRuns.frame) in
   phase s = Capturing
   ∧ inflight s = 2%nat
   ∧ requests s = [PostVerify AttendanceRuns.frame "capture.jpg";
                   PostVerify AttendanceRuns.frame "capture.jpg"]
   ∧ ¬ (inflight s ≤ 1)%nat)
  ∧ (let s1 := run AttendanceRuns.capturing
                 (fire 1%nat AttendanceRuns.frame ++ [ClickStop]) in
     let s2 := run s1 (startCommand (Granted 1%nat) ++
                       fire 2%nat AttendanceRuns.frame) in
     phase s1 = Idle
     ∧ inflight s1 = 1%nat
     ∧ phase s2 = Capturing
     ∧ inflight s2 = 2%nat
     ∧ ¬ (inflight s2 ≤ 1)%nat).
Proof. vm_compute. repeat split; try reflexivity; lia. Qed.

(** *** One camera stream at a time *)

Lemma onlyActive_init : onlyActive None [].
Proof. intros i st Hi. by rewrite lookup_nil in Hi. Qed.

(** [stopAttendance] keeps the poller settled. *)
Lemma stopAttendance_settled (s : State) :
  delayed s = 0%nat → acquiring s = 0%nat →
  onlyActive (streamRef s) (media s) →
  settled (commit (stopAttendance s)).
Proof.
  destruct s as [cap log err proc vr sref cr ir md timers next tsts reqs
                 del acq enc inf].
  cbn [delayed acquiring streamRef media]. intros -> -> Hact.
  unfold stopAttendance, stopCamera, commit, settled.
  destruct sref as [ref|], vr as [v|], ir as [id|]; cbn;
    repeat split; try done;
    first [ by apply BrowserFacts.onlyActive_stop | exact Hact ].
Qed.

(** The events of a tick and the stop button keep the poller settled. *)
Lemma step_settled (s : State) (e : Event) :
  match e with
  | ClickStart | DelayElapsed | MediaSettled _ => False
  | _ => True
  end →
  settled s → settled (step s e).
Proof.
  intros He (Hd & Ha & Hidle & Hact). unfold step.
  destruct e as [| |r| | |id|blob|r now]; try done.
  - (* LoadedData *)
    destruct s as [cap log err proc vr sref cr ir md timers next tsts reqs
                   del acq enc inf].
    cbn in Hd, Ha, Hidle, Hact. subst del acq.
    unfold handle, loadedData, armInterval, commit, settled.
    destruct vr as [[[src|] rs [|]]|], cap; cbn; repeat split; auto.
  - (* ClickStop *)
    by apply stopAttendance_settled.
  - (* TimerFired *)
    destruct s as [cap log err proc vr sref cr ir md timers next tsts reqs
                   del acq enc inf].
    cbn in Hd, Ha, Hidle, Hact. subst del acq.
    unfold handle, captureFrame, commit, settled. cbn -[bool_decide].
    destruct (bool_decide (id ∈ timers)), vr as [v|], cr as [[[|]]|], cap;
      cbn; repeat split; auto.
  - (* BlobReady *)
    destruct s as [cap log err proc vr sref cr ir md timers next tsts reqs
                   del acq enc inf].
    cbn in Hd, Ha, Hidle, Hact. subst del acq.
    unfold handle, sendFrame_request, commit, settled.
    destruct enc as [|n], blob as [b|], vr as [v|], cap;
      cbn; repeat split; auto.
  - (* FetchSettled *)
    unfold handle. destruct (inflight s) as [|n] eqn:Hn.
    + destruct s as [cap log err proc vr sref cr ir md timers next tsts reqs
                     del acq enc inf].
      cbn in Hd, Ha, Hidle, Hact. subst del acq.
      unfold commit, settled. destruct cap, vr; cbn; repeat split; auto.
    + unfold sendFrame_resume.
      destruct (verifyOutcome r) as [msg|data].
      * destruct s as [cap log err proc vr sref cr ir md timers next tsts
                       reqs del acq enc inf].
        cbn in Hd, Ha, Hidle, Hact. subst del acq.
        unfold commit, settled. destruct cap, vr; cbn; repeat split; auto.
      * destruct (verified data).
        -- apply stopAttendance_settled; destruct s; assumption.
        -- destruct s as [cap log err proc vr sref cr ir md timers next tsts
                          reqs del acq enc inf].
           cbn in Hd, Ha, Hidle, Hact. subst del acq.
           unfold commit, settled. destruct cap, vr; cbn; repeat split; auto.
Qed.

(** Click, delay and camera of a start command keep the poller settled. *)
Lemma start_settled (s : State) (r : MediaResult) :
  settled s → settled (run s [ClickStart; DelayElapsed; MediaSettled r]).
Proof.
  destruct s as [cap log err proc vr sref cr ir md timers next tsts reqs
                 del acq enc inf].
  intros (Hd & Ha & Hidle & Hact). cbn in Hd, Ha, Hidle, Hact. subst del acq.
  destruct cap.
  - (* already capturing: the click is refused *)
    unfold run, step, handle, startAttendance_click, commit, settled.
    destruct vr; cbn; repeat split; auto.
  - rewrite (Hidle eq_refl) in Hact |- *.
    unfold run, step, handle, startAttendance_click, startCamera_request,
      startCamera_resume, startAttendance_ready, armInterval, commit, settled.
    destruct r as [n|msg], vr as [[src [|[|rs]] h]|];
      cbn -[String.append]; repeat split; try done;
      first [ by apply BrowserFacts.onlyActive_fresh | exact Hact ].
Qed.

Lemma command_settled (s : State) (c : Command) :
  settled s → settled (run s (events c)).
Proof.
  intros Hs. destruct c as [r| |id blob r now]; cbn [events].
  - change (startCommand r)
      with ([ClickStart; DelayElapsed; MediaSettled r] ++ [LoadedData]).
    rewrite run_app. apply step_settled; [done|]. by apply start_settled.
  - by apply step_settled.
  - unfold tick, run. cbn [foldl].
    apply step_settled; [done|]. apply step_settled; [done|].
    by apply step_settled.
Qed.

Lemma exec_settled (c : Canvas) (cs : list Command) :
  settled (exec (init c) cs).
Proof.
  induction cs as [|cmd cs IH] using rev_ind.
  - pose proof onlyActive_init. by repeat split.
  - unfold exec. rewrite foldl_app. cbn [foldl]. by apply command_settled.
Qed.

End AttendanceFacts.

(** * Properties of the registration page *)

Module RegisterFacts.
Import Register.

(** *** One camera stream at a time *)

(** After [stopCamera] no stream is active and the video element shows
    nothing; the reference to the stopped stream is kept. *)
Lemma stopCamera_releases (s : State) :
  tracked s →
  onlyActive None (media (stopCamera s))
  ∧ videoRef (stopCamera s) ≫= srcObject = None
  ∧ videoStreamRef (stopCamera s) = videoStreamRef s
  ∧ media (stopCamera s) =
      match videoStreamRef s with
      | Some r => alter stopTracks r (media s)
      | None => media s
      end.
Proof.
  destruct s as [uid imgs ld sl msg vres fm sref vr cr md urls nu reqs
                 acq enc reg ve vi].
  unfold tracked, stopCamera. cbn. intros Hact.
  destruct sref as [r|], vr as [v|]; cbn; repeat split; try done;
    by apply BrowserFacts.onlyActive_stop.
Qed.

(** [startCamera], up to its [await]: whatever stream was active has had all
    its tracks stopped. *)
Lemma startCamera_request_stops (s : State) :
  tracked s →
  onlyActive None (media (startCamera_request s))
  ∧ videoStreamRef (startCamera_request s) = videoStreamRef s
  ∧ media (startCamera_request s) =
      match videoStreamRef s with
      | Some r => alter stopTracks r (media s)
      | None => media s
      end
  ∧ acquiring (startCamera_request s) = S (acquiring s).
Proof.
  intros Ht. destruct (stopCamera_releases s Ht) as (H1 & _ & H3 & H4).
  destruct s as [uid imgs ld sl msg vres fm sref vr cr md urls nu reqs
                 acq enc reg ve vi].
  unfold tracked in Ht. unfold startCamera_request, stopCamera in *.
  cbn in *. destruct sref as [r|], vr as [v|]; cbn in *; done.
Qed.

(** A settled [startCamera] call keeps the streams tracked. *)
Lemma startCamera_tracked (s : State) (r : MediaResult) :
  tracked s → tracked (run s (startCamera r)).
Proof.
  intros Ht. destruct (startCamera_request_stops s Ht) as (H1 & H2 & _ & H4).
  unfold startCamera, run. cbn [foldl]. unfold step at 2.
  change (step s Effect) with (startCamera_request s).
  destruct (startCamera_request s)
    as [uid imgs ld sl msg vres fm sref vr cr md urls nu reqs
        acq enc reg ve vi].
  cbn in H1, H4. subst acq. unfold tracked, startCamera_resume.
  destruct r as [n|m], vr as [v|]; cbn -[String.append];
    first [ by apply BrowserFacts.onlyActive_fresh
          | by apply BrowserFacts.onlyActive_weaken ].
Qed.

Lemma call_tracked (s : State) (c : Call) :
  tracked s → tracked (run s (callEvents c)).
Proof.
  intros Ht. destruct c as [r|]; cbn [callEvents].
  - by apply startCamera_tracked.
  - unfold run. cbn [foldl]. unfold step.
    destruct (stopCamera_releases s Ht) as (H1 & _).
    by apply BrowserFacts.onlyActive_weaken.
Qed.

Lemma calls_tracked (c : Canvas) (cs : list Call) :
  tracked (calls (init c) cs).
Proof.
  induction cs as [|call cs IH] using rev_ind.
  - intros i st Hi. cbn in Hi. by rewrite lookup_nil in Hi.
  - unfold calls. rewrite foldl_app. cbn [foldl]. by apply call_tracked.
Qed.

(** *** Pending images and their preview URLs *)

Lemma run_append (s : State) (es1 es2 : list Event) :
  run s (es1 ++ es2) = run (run s es1) es2.
Proof. apply foldl_app. Qed.

(** What one event does to the subject identifier, the facing mode, the
    pending images and the blob URL store. *)
Lemma step_images (s : State) (e : Event) :
  let s' := step s e in
  match e with
  | CaptureBlob (Some b) now =>
      userId s' = userId s ∧ facingMode s' = facingMode s
      ∧ ((capturedImages s' = capturedImages s
          ∧ objectURLs s' = objectURLs s)
         ∨ (capturedImages s' =
              capturedImages s ++
                [mkImage now b ("blob:" +:+ pretty (nextURL s))]
            ∧ objectURLs s' =
                objectURLs s ++ [("blob:" +:+ pretty (nextURL s), b)]))
  | ClickRemove imageId =>
      userId s' = userId s ∧ facingMode s' = facingMode s
      ∧ capturedImages s' =
          filter (λ img, id img ≠ imageId) (capturedImages s)
      ∧ objectURLs s' = objectURLs s
  | ClickReset =>
      facingMode s' = facingMode s
      ∧ capturedImages s' = [] ∧ objectURLs s' = objectURLs s
  | Input _ =>
      facingMode s' = facingMode s
      ∧ capturedImages s' = capturedImages s ∧ objectURLs s' = objectURLs s
  | ClickToggle =>
      userId s' = userId s
      ∧ capturedImages s' = capturedImages s ∧ objectURLs s' = objectURLs s
  | _ =>
      userId s' = userId s ∧ facingMode s' = facingMode s
      ∧ capturedImages s' = capturedImages s ∧ objectURLs s' = objectURLs s
  end.
Proof.
  destruct s as [uid imgs ld sl msg vres fm sref vr cr md urls nu reqs
                 acq enc reg ve vi].
  destruct e as [| | |r|v| |b now|i| |k o| |b|r|]; unfold step;
    unfold startCamera_request, stopCamera, toggleCamera, startCamera_resume,
      captureImage_click, captureImage_blob, createObjectURL, removeImage,
      resetForm, registerUser_click, registerUser_resume, verifyFace_click,
      verifyFace_blob, verifyFace_resume, verifyFace_catch;
    cbn -[String.append pretty trim promiseAll Nat.leb].
  - by destruct sref, vr.
  - by destruct sref, vr.
  - by destruct sref, vr.
  - destruct acq; [done|]. by destruct r, vr.
  - done.
  - destruct (10 <=? length imgs)%nat; [done|].
    by destruct vr, cr as [[[|]]|].
  - destruct b as [b|], enc; cbn -[String.append pretty]; auto.
  - done.
  - destruct (truthy (trim uid)); cbn -[String.append pretty]; [|done].
    by destruct imgs.
  - destruct (reg !! k); [|done].
    by destruct (promiseAll _ _).
  - destruct sref; [|done]. by destruct vr, cr as [[[|]]|].
  - destruct ve; [done|]. by destruct b.
  - destruct vi; [done|].
    destruct r as [m|resp]; [done|].
    destruct (ok resp); cbn -[String.append]; [|done].
    destruct (json resp) as [m|res]; [done|].
    by destruct (verified res).
  - done.
Qed.

(** No event takes an entry out of the blob URL store. *)
Lemma step_objectURLs (s : State) (e : Event) :
  objectURLs s `prefix_of` objectURLs (step s e).
Proof.
  pose proof (step_images s e) as H. cbv zeta in H.
  destruct e as [| | |r|v| |[b|] now|i| |k o| |b|r|];
    try (destruct H as (_ & _ & _ & ->); done);
    try (destruct H as (_ & _ & ->); done).
  destruct H as (_ & _ & [[_ ->]|[_ ->]]); [done|]. by apply prefix_app_r.
Qed.

Lemma step_previewsAlive (s : State) (e : Event) :
  previewsAlive s → previewsAlive (step s e).
Proof.
  intros Hs img. pose proof (step_images s e) as H. cbv zeta in H.
  destruct e as [| | |r|v| |[b|] now|i| |k o| |b|r|];
    try (destruct H as (_ & _ & -> & ->); apply Hs);
    try (destruct H as (_ & -> & ->); apply Hs).
  - destruct H as (_ & _ & [[-> ->]|[-> ->]]); [apply Hs|].
    rewrite !elem_of_app, !list_elem_of_singleton.
    intros [Hin| ->]; [left; by apply Hs | right; done].
  - destruct H as (_ & _ & -> & ->).
    intros [_ Hin]%list_elem_of_filter. by apply Hs.
  - destruct H as (_ & -> & ->). by intros ?%elem_of_nil.
Qed.

Lemma run_previewsAlive (c : Canvas) (es : list Event) :
  previewsAlive (run (init c) es).
Proof.
  induction es as [|e es IH] using rev_ind.
  - intros img Hin. cbn in Hin. by apply elem_of_nil in Hin.
  - rewrite run_append. cbn. by apply step_previewsAlive.
Qed.

(** C3, as the code has it.  The registration page never calls
    [URL.revokeObjectURL]: at every point of every run the preview URL of
    each pending image is registered in the blob URL store, no event takes
    an entry out of the store, and [removeImage] and [resetForm] leave the
    store as it is. *)
Theorem C3_preview_urls_are_never_released :
  ∀ (c : Canvas) (es : list Event),
    let s := run (init c) es in
    (∀ img, img ∈ capturedImages s → (url img, blob img) ∈ objectURLs s)
    ∧ (∀ e, objectURLs s `prefix_of` objectURLs (step s e))
    ∧ (∀ imageId, objectURLs (removeImage imageId s) = objectURLs s
                  ∧ capturedImages (removeImage imageId s) =
                      filter (λ img, id img ≠ imageId) (capturedImages s))
    ∧ objectURLs (resetForm s) = objectURLs s
    ∧ capturedImages (resetForm s) = [].
Proof.
  intros c es s. repeat split.
  - apply run_previewsAlive.
  - apply step_objectURLs.
Qed.

(** C3 at the page with one photo: its preview URL is registered, and stays
    so when the photo is removed. *)
Lemma C3_preview_urls_witness :
  ("blob:0", RegisterRuns.frame) ∈ objectURLs (RegisterRuns.withImages 1)
  ∧ objectURLs (RegisterRuns.withImages 1) `prefix_of`
      objectURLs (step (RegisterRuns.withImages 1) (ClickRemove 1700000000000)).
Proof.
  pose proof (C3_preview_urls_are_never_released (mkCanvas true)
                (startCamera (Granted 1) ++
                 (seq 0 1 ≫= λ i,
                    captureImage (Some RegisterRuns.frame)
                      (1700000000000 + Z.of_nat i)))) as H.
  cbv zeta in H. destruct H as (H1 & H2 & _).
  split.
  - apply (H1 (mkImage 1700000000000 RegisterRuns.frame "blob:0")).
    vm_compute. constructor.
  - apply H2.
Defined.

(** C3 as stated fails: one photo is taken and then removed (or the form is
    reset); the list is empty and the preview URL is still registered. *)
Lemma C3_removed_preview_still_registered :
  let s1 := RegisterRuns.withImages 1 in
  let s2 := run s1 [ClickRemove 1700000000000] in
  let s3 := run s1 [ClickReset] in
  capturedImages s1 = [mkImage 1700000000000 RegisterRuns.frame "blob:0"]
  ∧ capturedImages s2 = []
  ∧ objectURLs s2 = [("blob:0", RegisterRuns.frame)]
  ∧ capturedImages s3 = []
  ∧ objectURLs s3 = [("blob:0", RegisterRuns.frame)].
Proof. vm_compute. repeat split; reflexivity. Qed.

(** C10.  Neither segment of [registerUser] (the click up to the requests,
    and what follows the settled [Promise.all], whether it fulfilled or
    rejected) changes the subject identifier, the pending images, the blob
    URL store that holds their previews, or the facing mode.  Of all events
    only [resetForm] and [removeImage] can make the pending list shorter. *)
Theorem C10_register_leaves_form_untouched :
  ∀ (s : State) (k : nat) (o : nat → Settled) (e : Event),
    (userId (step s ClickRegister) = userId s
     ∧ capturedImages (step s ClickRegister) = capturedImages s
     ∧ objectURLs (step s ClickRegister) = objectURLs s
     ∧ facingMode (step s ClickRegister) = facingMode s)
    ∧ (userId (step s (RegisterSettled k o)) = userId s
       ∧ capturedImages (step s (RegisterSettled k o)) = capturedImages s
       ∧ objectURLs (step s (RegisterSettled k o)) = objectURLs s
       ∧ facingMode (step s (RegisterSettled k o)) = facingMode s)
    ∧ match e with
      | ClickReset | ClickRemove _ => True
      | _ => (length (capturedImages s) ≤ length (capturedImages (step s e)))%nat
      end.
Proof.
  intros s k o e.
  pose proof (step_images s ClickRegister) as H1.
  pose proof (step_images s (RegisterSettled k o)) as H2.
  pose proof (step_images s e) as H3. cbv beta iota zeta in H1, H2, H3.
  split; [tauto|]. split; [tauto|].
  destruct e as [| | |r|v| |[b|] now|i| |k' o'| |b|r|]; try done;
    try (destruct H3 as (_ & _ & -> & _); done);
    try (destruct H3 as (_ & -> & _); done).
  destruct H3 as (_ & _ & [[-> _]|[-> _]]); [done|].
  rewrite length_app. lia.
Qed.

(** *** Removing an image *)

Lemma filter_split_length {A} (P : A → Prop) `{∀ x, Decision (P x)}
    (l : list A) :
  (length (filter (λ x, ¬ P x) l) + length (filter P l) = length l)%nat.
Proof.
  induction l as [|x l IH]; [done|].
  rewrite !filter_cons. destruct (decide (P x)), (decide (¬ P x));
    cbn [length]; try done; lia.
Qed.

Lemma filter_absent (imageId : Z) (imgs : list CapturedImage) :
  imageId ∉ id <$> imgs → filter (λ img, id img ≠ imageId) imgs = imgs.
Proof.
  induction imgs as [|img imgs IH]; [done|].
  rewrite fmap_cons, not_elem_of_cons. intros [Hne Hnin].
  rewrite filter_cons_True by done. by rewrite IH.
Qed.

Lemma filter_unique (imageId : Z) (imgs : list CapturedImage) :
  NoDup (id <$> imgs) → imageId ∈ id <$> imgs →
  length (filter (λ img, id img = imageId) imgs) = 1%nat.
Proof.
  induction imgs as [|img imgs IH]; [by intros _ ?%elem_of_nil|].
  rewrite fmap_cons, NoDup_cons, elem_of_cons. intros [Hnin Hnd] Hin.
  destruct (decide (id img = imageId)) as [Heq|Hne].
  - rewrite filter_cons_True by done. cbn [length]. f_equal.
    subst imageId. clear -Hnin. induction imgs as [|x imgs IH]; [done|].
    rewrite fmap_cons, not_elem_of_cons in Hnin. destruct Hnin as [Hne Hnin].
    rewrite filter_cons_False by congruence. by apply IH.
  - rewrite filter_cons_False by done. destruct Hin as [Heq|Hin]; [done|].
    by apply IH.
Qed.

(** C7, as the code has it.  [removeImage] keeps exactly the entries whose
    id differs from the given one: an id that is not in the list leaves the
    list unchanged; an id that is in the list takes out every entry that
    carries it, which is exactly one entry when the ids in the list are
    distinct.  No preview URL is released: the blob URL store is
    unchanged. *)
Theorem C7_removeImage_filters_by_id :
  ∀ (s : State) (imageId : Z),
    let s' := removeImage imageId s in
    (imageId ∉ id <$> capturedImages s →
     capturedImages s' = capturedImages s)
    ∧ capturedImages s' =
        filter (λ img, id img ≠ imageId) (capturedImages s)
    ∧ (length (capturedImages s') +
       length (filter (λ img, id img = imageId) (capturedImages s))
       = length (capturedImages s))%nat
    ∧ (NoDup (id <$> capturedImages s) →
       imageId ∈ id <$> capturedImages s →
       S (length (capturedImages s')) = length (capturedImages s))
    ∧ objectURLs s' = objectURLs s.
Proof.
  intros s imageId s'. subst s'.
  assert (Himgs : capturedImages (removeImage imageId s) =
                  filter (λ img, id img ≠ imageId) (capturedImages s))
    by by destruct s.
  pose proof (filter_split_length (λ img, id img = imageId)
                (capturedImages s)) as Hlen.
  rewrite Himgs. split; [|split; [|split; [|split]]].
  - apply filter_absent.
  - reflexivity.
  - exact Hlen.
  - intros Hnd Hin. rewrite (filter_unique _ _ Hnd Hin) in Hlen. lia.
  - by destruct s.
Qed.

(** C7 at a list with one photo. *)
Lemma C7_removeImage_witness :
  capturedImages (removeImage 7 (RegisterRuns.withImages 1)) =
    capturedImages (RegisterRuns.withImages 1)
  ∧ S (length (capturedImages
                 (removeImage 1700000000000 (RegisterRuns.withImages 1)))) =
      length (capturedImages (RegisterRuns.withImages 1)).
Proof.
  pose proof (C7_removeImage_filters_by_id (RegisterRuns.withImages 1) 7)
    as (H1 & _).
  pose proof (C7_removeImage_filters_by_id (RegisterRuns.withImages 1)
                1700000000000) as (_ & _ & _ & H2 & _).
  split.
  - apply H1. vm_compute. intros H. inversion H as [|? ? ? H']; subst.
    inversion H'.
  - apply H2.
    + vm_compute. apply NoDup_singleton.
    + vm_compute. constructor.
Defined.

(** C7 as stated fails twice: removing the only photo leaves its preview URL
    registered, and removing the id shared by the two photos of a double
    click takes both out. *)
Lemma C7_remove_keeps_url_and_drops_twins :
  (let s := run (RegisterRuns.withImages 1) [ClickRemove 1700000000000] in
   capturedImages s = []
   ∧ objectURLs s = [("blob:0", RegisterRuns.frame)])
  ∧ (let s0 := run (RegisterRuns.withImages 0) (RegisterRuns.doubleClick 5) in
     let s := run s0 [ClickRemove 5] in
     id <$> capturedImages s0 = [5; 5]
     ∧ length (capturedImages s0) = 2%nat
     ∧ length (capturedImages s) = 0%nat).
Proof. vm_compute. repeat split; reflexivity. Qed.

(** *** The cap of ten images *)

(** At the cap, [captureImage] only reports that the maximum is reached. *)
Lemma captureImage_at_cap (s : State) :
  (10 ≤ length (capturedImages s))%nat →
  step s ClickCapture =
    setMessage (mkMessage "Maximum number of images (10) reached" error) s.
Proof.
  intros H%Nat.leb_le. unfold step, captureImage_click. by rewrite H.
Qed.

(** C6 fails on a double click.  With nine pending images, a second click
    that comes before the blob of the first one is ready passes the same
    length test; both callbacks append, and the list holds eleven images. *)
Theorem C6_double_click_exceeds_cap :
  let s9 := RegisterRuns.withImages 9 in
  let s := run s9 (RegisterRuns.doubleClick 1700000000100) in
  length (capturedImages s9) = 9%nat
  ∧ encoding s9 = 0%nat
  ∧ length (capturedImages s) = 11%nat
  ∧ ¬ (length (capturedImages s) ≤ 10)%nat.
Proof. vm_compute. repeat split; try reflexivity. lia. Qed.

(** *** Registration *)

Lemma truthy_false (x : string) : truthy x = false ↔ x = EmptyString.
Proof. by destruct x. Qed.

Lemma foldl_earlier_Some (acc : nat * string) (l : list (nat * string)) :
  foldl earlier (Some acc) l ≠ None.
Proof.
  revert acc. induction l as [|x l IH]; intros acc; [done|].
  cbn [foldl]. unfold earlier at 2. destruct (x.1 <? acc.1)%nat; apply IH.
Qed.

Lemma foldl_earlier_None (l : list (nat * string)) :
  foldl earlier None l = None ↔ l = [].
Proof.
  destruct l as [|x l]; [done|]. cbn. split; [|done].
  intros H. by apply foldl_earlier_Some in H.
Qed.

Lemma rejections_nil (o : nat → Settled) (n k : nat) :
  omap (λ i, (λ msg, (settledAt (o i), msg)) <$> submission (result (o i)))
       (seq k n) = []
  ↔ ∀ i, (k ≤ i < k + n)%nat → submission (result (o i)) = None.
Proof.
  revert k. induction n as [|n IH]; intros k.
  - cbn. split; [intros _ i Hi; lia | done].
  - cbn. destruct (submission (result (o k))) as [msg|] eqn:E; cbn.
    + split; [done|]. intros H. specialize (H k). rewrite E in H.
      discriminate H. lia.
    + change (list_omap nat (nat * string)%type) with
        (@omap list _ nat (nat * string)%type).
      rewrite IH. split; intros H i Hi.
      * destruct (decide (i = k)) as [->|Hne]; [done|]. apply H. lia.
      * apply H. lia.
Qed.

(** [Promise.all] fulfils exactly when every promise does. *)
Lemma promiseAll_fulfils (n : nat) (o : nat → Settled) :
  promiseAll n o = None
  ↔ ∀ i, (i < n)%nat → submission (result (o i)) = None.
Proof.
  unfold promiseAll, rejections. rewrite fmap_None, foldl_earlier_None.
  rewrite rejections_nil. split; intros H i Hi; apply H; lia.
Qed.

(** The click of a valid registration. *)
Lemma registerUser_click_valid (s : State) :
  trim (userId s) ≠ EmptyString → capturedImages s ≠ [] →
  step s ClickRegister =
    setSuspended (acquiring s) (encoding s)
      (registering s ++ [mkClosure (userId s) (length (capturedImages s))])
      (verifyEncoding s) (verifyInflight s)
      (setRequests
         (requests s ++ registerRequests (userId s) (capturedImages s))
         (setMessage (mkMessage "Registering user..." info)
            (setIsLoading true s))).
Proof.
  intros Hid Himgs. unfold step, registerUser_click.
  destruct (truthy (trim (userId s))) eqn:E;
    [|by apply truthy_false in E].
  destruct (capturedImages s) as [|img imgs] eqn:E'; [done|]. cbn [negb].
  cbn [length Nat.eqb]. destruct s. cbn in E'. by rewrite E'.
Qed.

(** C5.  [registerUser] with a blank subject identifier or with no pending
    image reports an error and sends nothing.  Otherwise it sends one
    registration request per pending image, each for that identifier, and
    once they have settled it reports success exactly when every submission
    succeeded; when one of them failed it reports an error. *)
Theorem C5_register_all_or_nothing :
  ∀ (s : State) (o : nat → Settled),
    let s' := step s ClickRegister in
    let s'' := step s' (RegisterSettled (length (registering s)) o) in
    ((trim (userId s) = EmptyString ∨ capturedImages s = []) →
     type (message s') = error
     ∧ requests s' = requests s
     ∧ registering s' = registering s)
    ∧ (trim (userId s) ≠ EmptyString → capturedImages s ≠ [] →
       requests s' =
         requests s ++
           ((λ image,
               PostRegister (userId s) (blob image)
                 ("face_" +:+ pretty (id image) +:+ ".jpg"))
            <$> capturedImages s)
       ∧ (type (message s'') = success
          ↔ ∀ i, (i < length (capturedImages s))%nat →
                 submission (result (o i)) = None)
       ∧ ((∃ i, (i < length (capturedImages s))%nat
                ∧ submission (result (o i)) ≠ None) →
          type (message s'') = error)
       ∧ isLoading s'' = false).
Proof.
  intros s o s' s''. split.
  - intros Hbad. subst s' s''. unfold step, registerUser_click.
    destruct (truthy (trim (userId s))) eqn:E; cbn [negb].
    + destruct Hbad as [Hbad|Hbad]; [by rewrite Hbad in E|].
      rewrite Hbad. cbn [length Nat.eqb]. by destruct s.
    + by destruct s.
  - intros Hid Himgs. subst s''. subst s'.
    rewrite (registerUser_click_valid s Hid Himgs).
    split; [by destruct s|].
    unfold step. cbn [registering setSuspended].
    rewrite list_lookup_middle by done.
    unfold registerUser_resume. cbn [closure_count closure_userId].
    rewrite <- promiseAll_fulfils.
    destruct (promiseAll (length (capturedImages s)) o) as [msg|] eqn:E.
    + split; [|split]; [split; [|done] | done | done].
      cbn. discriminate.
    + split; [|split]; [done | | done].
      intros (i & Hi & Hne). exfalso. apply Hne.
      by apply (proj1 (promiseAll_fulfils _ _) E).
Qed.

(** C5 at the form with the identifier [u1] and two photos, whose second
    submission is answered with status 500, and at the same form without an
    identifier. *)
Lemma C5_register_witness :
  let s := run (RegisterRuns.withImages 2) [Input "u1"] in
  let o := λ i, if decide (i = 1%nat)
                then RegisterRuns.refused 2 else RegisterRuns.accepted 3 in
  length (requests (step s ClickRegister)) = 2%nat
  ∧ type (message
            (step (step s ClickRegister) (RegisterSettled 0 o))) = error
  ∧ type (message (step (RegisterRuns.withImages 2) ClickRegister)) = error.
Proof.
  intros s o.
  pose proof (C5_register_all_or_nothing s o) as (_ & H).
  pose proof (C5_register_all_or_nothing (RegisterRuns.withImages 2) o)
    as (H' & _).
  cbv zeta in H, H'.
  destruct H as (H1 & _ & H3 & _).
  - vm_compute. discriminate.
  - vm_compute. discriminate.
  - destruct H' as (H1' & _).
    + left. vm_compute. reflexivity.
    + split; [|split].
      * rewrite H1. vm_compute. reflexivity.
      * apply H3. exists 1%nat. split; [vm_compute; lia|].
        vm_compute. discriminate.
      * exact H1'.
Defined.

End RegisterFacts.

(** * The camera session manager of both pages *)

Module CameraFacts.

Lemma lookup_stopped (r : StreamRef) (st : MediaStream)
    (media : list MediaStream) :
  media !! r = Some st → alter stopTracks r media !! r = Some (stopTracks st).
Proof.
  intros H. rewrite list_lookup_alter. case_decide; [|done].
  apply fmap_Some. by exists st.
Qed.

Lemma attendance_stopCamera_releases (s : Attendance.State) :
  onlyActive (Attendance.streamRef s) (Attendance.media s) →
  onlyActive None (Attendance.media (Attendance.stopCamera s))
  ∧ Attendance.videoRef (Attendance.stopCamera s) ≫= srcObject = None
  ∧ Attendance.streamRef (Attendance.stopCamera s) = None
  ∧ Attendance.media (Attendance.stopCamera s) =
      match Attendance.streamRef s with
      | Some r => alter stopTracks r (Attendance.media s)
      | None => Attendance.media s
      end.
Proof.
  destruct s as [cap log err proc vr sref cr ir md timers next tsts reqs
                 del acq enc inf].
  unfold Attendance.stopCamera. cbn. intros Hact.
  destruct sref as [r|], vr as [v|]; cbn; repeat split; try done;
    by apply BrowserFacts.onlyActive_stop.
Qed.

(** C2 on a start that is made while an earlier start is still waiting for
    [getUserMedia].

    Attendance page: the stop button is pressed while the camera request of
    a start is pending.  The poller is idle when the stream arrives, and the
    stream is kept in [streamRef] with its track live.  The next start puts
    its own stream in [streamRef] without stopping the one held there: two
    streams are active, and the stop that follows reaches the second one
    only.

    Registration page: the camera is toggled while the camera request of the
    mount effect is pending.  [startCamera] stops the stream it holds before
    it awaits [getUserMedia]; both requests are granted after that, the
    second stream replaces the first in [videoStreamRef], two streams are
    active, and [stopCamera] reaches the second one only. *)
Theorem C2_start_over_pending_start_leaves_two_streams :
  (let s1 := Attendance.run (Attendance.init (mkCanvas true))
               [Attendance.ClickStart; Attendance.DelayElapsed;
                Attendance.ClickStop; Attendance.MediaSettled (Granted 1)] in
   let s2 := Attendance.run s1 (Attendance.startCommand (Granted 1)) in
   let s3 := Attendance.step s2 Attendance.ClickStop in
   Attendance.phase s1 = Attendance.Idle
   ∧ Attendance.streamRef s1 = Some 0%nat
   ∧ Attendance.media s1 = [[live]]
   ∧ Attendance.phase s2 = Attendance.Capturing
   ∧ Attendance.streamRef s2 = Some 1%nat
   ∧ Attendance.media s2 = [[live]; [live]]
   ∧ activeCount (Attendance.media s2) = 2%nat
   ∧ Attendance.phase s3 = Attendance.Idle
   ∧ Attendance.streamRef s3 = None
   ∧ Attendance.media s3 = [[live]; [ended]]
   ∧ Attendance.media (Attendance.unmount s3) = [[live]; [ended]])
  ∧ (let s := Register.run (Register.init (mkCanvas true))
                [Register.Effect; Register.ClickToggle;
                 Register.MediaSettled (Granted 1);
                 Register.MediaSettled (Granted 1)] in
     Register.videoStreamRef s = Some 1%nat
     ∧ Register.media s = [[live]; [live]]
     ∧ activeCount (Register.media s) = 2%nat
     ∧ Register.media (Register.stopCamera s) = [[live]; [ended]]).
Proof. vm_compute. repeat split; reflexivity. Qed.

(** The same happens without a click when the effect of the registration
    page runs, is cleaned up and runs again before the first [getUserMedia]
    has settled, as React's strict mode does on mount: both requests are
    granted and the first stream is never stopped. *)
Remark overlapping_starts_leave_two_streams :
  let s := Register.run (Register.init (mkCanvas true))
             [Register.Effect; Register.Cleanup; Register.Effect;
              Register.MediaSettled (Granted 1);
              Register.MediaSettled (Granted 1)] in
  Register.media s = [[live]; [live]]
  ∧ Register.videoStreamRef s = Some 1%nat.
Proof. vm_compute. split; reflexivity. Qed.

(** X19.  One stream at a time, for calls and commands that have settled
    before the next one is made.

    Registration page: after every sequence of [startCamera] and [stopCamera]
    calls at most one stream is active; [startCamera] begins by stopping
    every track of the stream it holds, so that no stream is active while the
    new one is requested; [stopCamera] stops every track of the stream it
    holds and clears the binding of the video element.

    Attendance page: [startCamera] does not stop a previous stream; there
    [startAttendance] refuses to start while the poller is capturing, and
    after every sequence of start, stop and tick commands at most one stream
    is active; [stopCamera] stops every track of the stream it holds, drops
    the reference and clears the binding of the video element. *)
Theorem one_active_stream_between_settled_calls :
  (∀ (c : Canvas) (cs : list Register.Call),
     let s := Register.calls (Register.init c) cs in
     (activeCount (Register.media s) ≤ 1)%nat
     ∧ activeCount (Register.media (Register.startCamera_request s)) = 0%nat
     ∧ (∀ r st, Register.videoStreamRef s = Some r →
                Register.media s !! r = Some st →
                Register.media (Register.startCamera_request s) !! r =
                  Some (stopTracks st))
     ∧ activeCount (Register.media (Register.stopCamera s)) = 0%nat
     ∧ (∀ r st, Register.videoStreamRef s = Some r →
                Register.media s !! r = Some st →
                Register.media (Register.stopCamera s) !! r =
                  Some (stopTracks st))
     ∧ Register.videoRef (Register.stopCamera s) ≫= srcObject = None)
  ∧ (∀ (c : Canvas) (cs : list Attendance.Command),
       let s := Attendance.exec (Attendance.init c) cs in
       (activeCount (Attendance.media s) ≤ 1)%nat
       ∧ activeCount (Attendance.media (Attendance.stopCamera s)) = 0%nat
       ∧ (∀ r st, Attendance.streamRef s = Some r →
                  Attendance.media s !! r = Some st →
                  Attendance.media (Attendance.stopCamera s) !! r =
                    Some (stopTracks st))
       ∧ Attendance.streamRef (Attendance.stopCamera s) = None
       ∧ Attendance.videoRef (Attendance.stopCamera s) ≫= srcObject = None).
Proof.
  split.
  - intros c cs s.
    pose proof (RegisterFacts.calls_tracked c cs) as Ht. fold s in Ht.
    destruct (RegisterFacts.stopCamera_releases s Ht) as (H1 & H2 & _ & H4).
    destruct (RegisterFacts.startCamera_request_stops s Ht)
      as (H5 & _ & H7 & _).
    split; [by apply (BrowserFacts.activeCount_onlyActive _ _ Ht)|].
    split; [by apply BrowserFacts.activeCount_none|].
    split; [intros r st Hr Hst; rewrite H7, Hr; by apply lookup_stopped|].
    split; [by apply BrowserFacts.activeCount_none|].
    split; [intros r st Hr Hst; rewrite H4, Hr; by apply lookup_stopped|].
    exact H2.
  - intros c cs s.
    destruct (AttendanceFacts.exec_settled c cs) as (_ & _ & _ & Ht).
    fold s in Ht.
    destruct (attendance_stopCamera_releases s Ht) as (H1 & H2 & H3 & H4).
    split; [by apply (BrowserFacts.activeCount_onlyActive _ _ Ht)|].
    split; [by apply BrowserFacts.activeCount_none|].
    split; [intros r st Hr Hst; rewrite H4, Hr; by apply lookup_stopped|].
    done.
Qed.

(** At concrete runs: the camera of the registration page started twice
    and then stopped, and the poller started and stopped. *)
Lemma one_active_stream_witness :
  (let s := Register.calls (Register.init (mkCanvas true))
              [Register.Start (Granted 1); Register.Start (Granted 1)] in
   (activeCount (Register.media s) ≤ 1)%nat
   ∧ Register.media (Register.stopCamera s) !! 1%nat = Some [ended])
  ∧ (let s := Attendance.exec (Attendance.init (mkCanvas true))
                [Attendance.StartCmd (Granted 1)] in
     (activeCount (Attendance.media s) ≤ 1)%nat
     ∧ Attendance.media (Attendance.stopCamera s) !! 0%nat = Some [ended]).
Proof.
  destruct one_active_stream_between_settled_calls as [HR HA].
  split.
  - intros s.
    destruct (HR (mkCanvas true)
                [Register.Start (Granted 1); Register.Start (Granted 1)])
      as (H1 & _ & _ & _ & H5 & _).
    split; [exact H1|].
    apply (H5 1%nat [live]); vm_compute; reflexivity.
  - intros s.
    destruct (HA (mkCanvas true) [Attendance.StartCmd (Granted 1)])
      as (H1 & _ & H3 & _).
    split; [exact H1|].
    apply (H3 0%nat [live]); vm_compute; reflexivity.
Defined.

End CameraFacts.

(** * Further properties of the attendance page *)

Module AttendanceExtras.
Import Attendance.

(** *** The attendance log *)

(** One event leaves the log alone or puts one record at its head, and the
    latter only for a response that decodes to [verified = true]. *)
Lemma step_log (s : State) (e : Event) :
  attendanceLog (step s e) = attendanceLog s
  ∨ ∃ r now d,
      e = FetchSettled r now ∧ verifyOutcome r = inr d ∧ verified d = true
      ∧ attendanceLog (step s e) =
          mkRecord (user_id d) now (confidence_score d) :: attendanceLog s.
Proof.
  unfold step.
  destruct (AttendanceFacts.commit_frame (handle e s)) as (_ & -> & _).
  destruct s as [cap log err proc vr sref cr ir md timers next tsts reqs
                 del acq enc inf].
  destruct e as [| |r| | |id|blob|r now]; unfold handle.
  - left. unfold startAttendance_click. by destruct cap.
  - left. by destruct del.
  - left. cbn. destruct acq as [|a]; [done|].
    unfold startAttendance_ready, startCamera_resume.
    destruct r as [n|msg]; cbn -[String.append];
      destruct vr as [[src [|[|rs]] h]|]; done.
  - left. unfold loadedData. cbn. destruct vr as [[[src|] rs [|]]|]; done.
  - left. unfold stopAttendance, stopCamera. cbn. destruct sref, vr, ir; done.
  - left. cbn -[bool_decide]. destruct (bool_decide (id ∈ timers)); [|done].
    unfold captureFrame. cbn. by destruct vr, cr as [[[|]]|].
  - left. cbn. destruct enc as [|n]; [done|]. by destruct blob.
  - cbn -[sendFrame_resume]. destruct inf as [|n]; [by left|].
    unfold sendFrame_resume.
    destruct (verifyOutcome r) as [msg|data] eqn:Hr;
      cbn -[String.append]; [by left|].
    destruct (verified data) eqn:Hd; cbn -[String.append]; [|by left].
    right. exists r, now, data. repeat split; try done.
    unfold stopAttendance, stopCamera. cbn -[String.append].
    destruct sref, vr, ir; done.
Qed.

(** X1.  The attendance log is append-only and newest-first: whatever
    happens, the log before is a suffix of the log after, and the only event
    that extends it is a response that decodes to [verified = true], which
    puts its record at the head. *)
Theorem log_only_grows_at_the_head :
  ∀ (s : State) (es : list Event) (e : Event),
    attendanceLog s `suffix_of` attendanceLog (run s es)
    ∧ (attendanceLog (step s e) = attendanceLog s
       ∨ ∃ r now d,
           e = FetchSettled r now ∧ verifyOutcome r = inr d
           ∧ verified d = true
           ∧ attendanceLog (step s e) =
               mkRecord (user_id d) now (confidence_score d)
               :: attendanceLog s).
Proof.
  intros s es e. split; [|apply step_log].
  revert s. induction es as [|e' es IH]; intros s; [done|].
  cbn [run foldl]. change (foldl step ?a es) with (run a es).
  transitivity (attendanceLog (step s e')); [|apply IH].
  destruct (step_log s e') as [->|(r & now & d & _ & _ & _ & ->)];
    [done|]. by apply suffix_cons_r.
Qed.

(** *** A tick without a frame *)

Lemma commit_commit (s : State) : commit (commit s) = commit s.
Proof. destruct s as [[|] ? ? ? [v|]]; reflexivity. Qed.

Lemma timer_without_surface (s : State) (id : nat) :
  captureFrame s = false → step s (TimerFired id) = commit s.
Proof.
  intros H. unfold step, handle. rewrite H. by destruct (bool_decide _).
Qed.

Lemma blob_not_awaited (s : State) (blob : option Blob) :
  encoding s = 0%nat → step s (BlobReady blob) = commit s.
Proof. intros H. unfold step, handle. by rewrite H. Qed.

Lemma response_not_awaited (s : State) (r : FetchResult VerifyResponse)
    (now : string) :
  inflight s = 0%nat → step s (FetchSettled r now) = commit s.
Proof. intros H. unfold step, handle. by rewrite H. Qed.

Lemma timer_then_no_blob (s : State) (id : nat) :
  encoding s = 0%nat →
  step (step s (TimerFired id)) (BlobReady None) = commit s.
Proof.
  destruct s as [cap log err proc vr sref cr ir md timers next tsts reqs
                 del acq enc inf].
  cbn [encoding]. intros ->. unfold step at 2. unfold handle, captureFrame.
  cbn -[bool_decide].
  destruct (bool_decide (id ∈ timers)), vr as [v|], cr as [[[|]]|], cap;
    reflexivity.
Qed.

(** X2.  A tick that gets no frame is silent: when the canvas gives no blob,
    or there is no video element, canvas or 2D context to draw on, nothing
    is sent and neither the log, the error banner, the toasts nor the state
    of the poller change. *)
Theorem tick_without_frame_is_silent :
  ∀ (s : State) (id : nat) (blob : option Blob)
    (r : FetchResult VerifyResponse) (now : string),
    quiet s →
    blob = None ∨ captureFrame s = false →
    let s' := run s (tick id blob r now) in
    requests s' = requests s
    ∧ attendanceLog s' = attendanceLog s
    ∧ error s' = error s
    ∧ toasts s' = toasts s
    ∧ processing s' = processing s
    ∧ isCapturing s' = isCapturing s
    ∧ intervalRef s' = intervalRef s
    ∧ activeTimers s' = activeTimers s
    ∧ media s' = media s
    ∧ quiet s'.
Proof.
  intros s id blob r now [He Hi] Hno s'.
  assert (Hs' : s' = commit s).
  { subst s'. unfold run, tick. cbn [foldl].
    assert (H2 : step (step s (TimerFired id)) (BlobReady blob) = commit s).
    { destruct Hno as [->|Hno]; [by apply timer_then_no_blob|].
      rewrite (timer_without_surface s id Hno).
      rewrite blob_not_awaited; [apply commit_commit|].
      by destruct (AttendanceFacts.commit_frame s)
        as (_ & _ & _ & _ & _ & _ & _ & _ & _ & _ & _ & -> & _). }
    rewrite H2. rewrite response_not_awaited; [apply commit_commit|].
    by destruct (AttendanceFacts.commit_frame s)
      as (_ & _ & _ & _ & _ & _ & _ & _ & _ & _ & _ & _ & ->). }
  rewrite Hs'. unfold quiet.
  destruct (AttendanceFacts.commit_frame s)
    as (-> & -> & -> & -> & _ & _ & -> & -> & -> & -> & -> & -> & ->).
  done.
Qed.

Lemma tick_without_frame_witness :
  let s' := run AttendanceRuns.capturing
              (tick 1 None AttendanceRuns.matched "t1") in
  requests s' = [] ∧ attendanceLog s' = [].
Proof.
  pose proof (tick_without_frame_is_silent AttendanceRuns.capturing 1 None
                AttendanceRuns.matched "t1") as H.
  lapply H; [clear H; intros H | vm_compute; split; reflexivity].
  lapply H; [clear H; intros H | left; reflexivity].
  vm_compute in H. vm_compute. destruct H as (H1 & H2 & _).
  split; assumption.
Defined.

(** *** Stopping *)

Lemma filter_other_timers (id : nat) :
  filter (λ t, t ≠ id) [id] = [].
Proof. rewrite filter_cons_False by (intros H; by apply H). done. Qed.

(** The state the stop command leads to. *)
Lemma stop_state cap log err proc vr sref cr ir md timers next tsts reqs
    del acq enc inf :
  step (mkState cap log err proc vr sref cr ir md timers next tsts reqs
          del acq enc inf) ClickStop
  = mkState false log err proc None None cr None
      (match sref with
       | Some r => alter stopTracks r md
       | None => md
       end)
      (match ir with
       | Some id => filter (λ t, t ≠ id) timers
       | None => timers
       end)
      next tsts reqs del acq enc inf.
Proof. destruct vr, sref, ir; reflexivity. Qed.

(** X3.  The stop command works from every state: the poller is Idle, the
    interval it held is cleared and forgotten, the stream it held has all
    its tracks stopped and is forgotten, the video element is gone, and the
    log is as it was.  Stopping again changes nothing. *)
Theorem stop_always_reaches_idle :
  ∀ (s : State),
    let s' := step s ClickStop in
    phase s' = Idle
    ∧ intervalRef s' = None
    ∧ (∀ id, intervalRef s = Some id → ¬ (id ∈ activeTimers s'))
    ∧ streamRef s' = None
    ∧ (∀ r st, streamRef s = Some r → media s !! r = Some st →
               media s' !! r = Some (stopTracks st))
    ∧ videoRef s' = None
    ∧ attendanceLog s' = attendanceLog s
    ∧ step s' ClickStop = s'.
Proof.
  intros [cap log err proc vr sref cr ir md timers next tsts reqs
          del acq enc inf] s'. subst s'. rewrite !stop_state.
  unfold phase.
  cbn [isCapturing intervalRef activeTimers streamRef media videoRef
       attendanceLog].
  split; [done|]. split; [done|]. split.
  { intros id ->. by intros [Hne _]%list_elem_of_filter. }
  split; [done|]. split.
  { intros r st -> Hst. by apply CameraFacts.lookup_stopped. }
  done.
Qed.

Lemma stop_always_reaches_idle_witness :
  phase (step AttendanceRuns.capturing ClickStop) = Idle
  ∧ (1%nat ∉ activeTimers (step AttendanceRuns.capturing ClickStop))
  ∧ media (step AttendanceRuns.capturing ClickStop) !! 0%nat = Some [ended].
Proof.
  pose proof (stop_always_reaches_idle AttendanceRuns.capturing) as H.
  cbv zeta in H. destruct H as (H1 & _ & H3 & _ & H5 & _).
  split; [exact H1|]. split.
  - apply H3. vm_compute. reflexivity.
  - apply (H5 0%nat [live]); vm_compute; reflexivity.
Defined.

(** X4.  Stopping the poller does not cancel a request that is in flight:
    when its response arrives afterwards and decodes to [verified = true],
    the record is still put at the head of the log and the success toast is
    still shown, with the poller in Idle. *)
Theorem response_after_stop_is_still_recorded :
  ∀ (s : State) (r : FetchResult VerifyResponse) (now : string)
    (d : VerifyResponse),
    (0 < inflight s)%nat →
    verifyOutcome r = inr d → verified d = true →
    let s' := run s [ClickStop; FetchSettled r now] in
    attendanceLog s' =
      (mkRecord (user_id d) now (confidence_score d) :: attendanceLog s)
    ∧ toasts s' =
        toasts s ++ [ToastSuccess ("Successfully recorded attendance for "
                                   +:+ user_id d)]
    ∧ phase s' = Idle.
Proof.
  intros [cap log err proc vr sref cr ir md timers next tsts reqs
          del acq enc inf] r now d Hin Hr Hd.
  cbn [inflight] in Hin. destruct inf as [|n]; [lia|].
  unfold run. cbn [foldl]. rewrite stop_state.
  unfold step, handle, sendFrame_resume. cbn [inflight]. rewrite Hr, Hd.
  unfold phase. split; [|split]; reflexivity.
Qed.

Lemma response_after_stop_witness :
  attendanceLog
    (run (run AttendanceRuns.capturing (fire 1 AttendanceRuns.frame))
       [ClickStop; FetchSettled AttendanceRuns.matched "t1"]) =
    [mkRecord "u1" "t1" (QArith_base.Qmake 93 100)].
Proof.
  pose proof (response_after_stop_is_still_recorded
                (run AttendanceRuns.capturing (fire 1 AttendanceRuns.frame))
                AttendanceRuns.matched "t1"
                (mkVerify true "u1" (QArith_base.Qmake 93 100) None)) as H.
  lapply H; [clear H; intros H | vm_compute; lia].
  lapply H; [clear H; intros H | vm_compute; reflexivity].
  lapply H; [clear H; intros H | vm_compute; reflexivity].
  vm_compute in H. vm_compute. by destruct H as (H1 & _).
Defined.

(** *** Timers *)

(** The state a start command leads to from an idle poller. *)
Lemma start_state log err proc sref cr md timers next tsts reqs enc inf r :
  run (mkState false log err proc None sref cr None md timers next tsts
         reqs 0 0 enc inf) (startCommand r)
  = match r with
    | Granted n =>
        mkState true log None proc
          (Some (mkVideo (Some (length md)) 2 false)) (Some (length md)) cr
          (Some next) (md ++ [freshStream n]) (timers ++ [next]) (S next)
          tsts reqs 0 0 enc inf
    | Denied msg =>
        mkState true log (Some ("Could not access camera: " +:+ msg)) proc
          (Some (mkVideo None 0 true)) sref cr None md timers next tsts reqs
          0 0 enc inf
    end.
Proof. destruct r; reflexivity. Qed.

(** The start command is refused while the poller is capturing. *)
Lemma start_refused log err proc v sref cr ir md timers next tsts reqs enc
    inf r :
  onloadeddata v = true → srcObject v = None →
  run (mkState true log err proc (Some v) sref cr ir md timers next tsts
         reqs 0 0 enc inf) (startCommand r)
  = mkState true log err proc (Some v) sref cr ir md timers next tsts reqs
      0 0 enc inf.
Proof. destruct v as [src rs h]. cbn. intros -> ->. reflexivity. Qed.

Lemma start_refused_loaded log err proc v sref cr ir md timers next tsts
    reqs enc inf r :
  onloadeddata v = false →
  run (mkState true log err proc (Some v) sref cr ir md timers next tsts
         reqs 0 0 enc inf) (startCommand r)
  = mkState true log err proc
      (Some (match srcObject v with
             | Some ref => mkVideo (Some ref) 2 false
             | None => v
             end))
      sref cr ir md timers next tsts reqs 0 0 enc inf.
Proof. destruct v as [[src|] rs h]; cbn; intros ->; reflexivity. Qed.

Lemma start_refused_unmounted log err proc sref cr ir md timers next tsts
    reqs enc inf r :
  run (mkState true log err proc None sref cr ir md timers next tsts
         reqs 0 0 enc inf) (startCommand r)
  = mkState true log err proc (Some newVideo) sref cr ir md timers next tsts
      reqs 0 0 enc inf.
Proof. reflexivity. Qed.

Lemma start_steady (s : State) (r : MediaResult) :
  steady s → steady (run s (startCommand r)).
Proof.
  destruct s as [cap log err proc vr sref cr ir md timers next tsts reqs
                 del acq enc inf].
  intros ((Hd & Ha & Hidle & Hact) & Ht & Hi & Hv).
  cbn in Hd, Ha, Hidle, Hact, Ht, Hi, Hv. subst del acq timers.
  destruct cap.
  - destruct vr as [v|].
    + destruct (onloadeddata v) eqn:Hl.
      * rewrite start_refused; [|done|by apply Hv].
        by repeat split.
      * rewrite start_refused_loaded by done.
        repeat split; try done; cbn.
        intros v' [= <-]. destruct (srcObject v); cbn; congruence.
    + rewrite start_refused_unmounted.
      repeat split; try done. cbn. by intros v [= <-].
  - destruct (Hi eq_refl) as [-> ->]. rewrite (Hidle eq_refl) in *.
    rewrite start_state. destruct r as [n|msg].
    + repeat split; try done; cbn.
      * by apply BrowserFacts.onlyActive_fresh.
      * intros v [= <-]. done.
    + repeat split; try done. cbn. intros v [= <-]. done.
Qed.

Lemma stop_steady (s : State) : steady s → steady (step s ClickStop).
Proof.
  destruct s as [cap log err proc vr sref cr ir md timers next tsts reqs
                 del acq enc inf].
  intros ((Hd & Ha & Hidle & Hact) & Ht & Hi & Hv).
  cbn in Hd, Ha, Hidle, Hact, Ht, Hi, Hv. subst del acq timers.
  rewrite stop_state. repeat split; try done; cbn.
  - destruct sref as [ref|]; [by apply BrowserFacts.onlyActive_stop|done].
  - destruct ir as [id|]; [apply filter_other_timers|done].
Qed.

(** The events of a tick other than a verified response leave the fields
    that [steady] speaks of alone. *)
Lemma tick_event_steady (s : State) (e : Event) :
  match e with
  | TimerFired _ | BlobReady _ | FetchSettled _ _ => True
  | _ => False
  end →
  steady s → steady (step s e).
Proof.
  intros He Hs.
  destruct e as [| |r| | |id|blob|r now]; try done.
  - destruct s as [cap log err proc vr sref cr ir md timers next tsts reqs
                   del acq enc inf].
    destruct Hs as ((Hd & Ha & Hidle & Hact) & Ht & Hi & Hv).
    cbn in Hd, Ha, Hidle, Hact, Ht, Hi, Hv. subst del acq timers.
    unfold step, handle, captureFrame, commit, steady, settled.
    cbn -[bool_decide].
    destruct (bool_decide (id ∈ option_list ir)), vr as [v|],
      cr as [[[|]]|], cap; cbn; repeat split; auto;
      try done; try (by apply Hi);
      try (intros ? [= <-]; first [done | by apply Hv]).
  - destruct s as [cap log err proc vr sref cr ir md timers next tsts reqs
                   del acq enc inf].
    destruct Hs as ((Hd & Ha & Hidle & Hact) & Ht & Hi & Hv).
    cbn in Hd, Ha, Hidle, Hact, Ht, Hi, Hv. subst del acq timers.
    unfold step, handle, sendFrame_request, commit, steady, settled.
    destruct enc as [|n], blob as [b|], vr as [v|], cap;
      cbn; repeat split; auto;
      try done; try (by apply Hi);
      try (intros ? [= <-]; first [done | by apply Hv]).
  - unfold step, handle. destruct (inflight s) as [|n] eqn:Hn.
    + destruct s as [cap log err proc vr sref cr ir md timers next tsts reqs
                     del acq enc inf].
      destruct Hs as ((Hd & Ha & Hidle & Hact) & Ht & Hi & Hv).
      cbn in Hd, Ha, Hidle, Hact, Ht, Hi, Hv. subst del acq timers.
      unfold commit, steady, settled.
      destruct vr as [v|], cap; cbn; repeat split; auto;
        try done; try (by apply Hi);
      try (intros ? [= <-]; first [done | by apply Hv]).
    + unfold sendFrame_resume.
      destruct (verifyOutcome r) as [msg|data].
      * destruct s as [cap log err proc vr sref cr ir md timers next tsts
                       reqs del acq enc inf].
        destruct Hs as ((Hd & Ha & Hidle & Hact) & Ht & Hi & Hv).
        cbn in Hd, Ha, Hidle, Hact, Ht, Hi, Hv. subst del acq timers.
        unfold commit, steady, settled.
        destruct vr as [v|], cap; cbn; repeat split; auto;
          try done; try (by apply Hi);
      try (intros ? [= <-]; first [done | by apply Hv]).
      * destruct (verified data).
        -- destruct s as [cap log err proc vr sref cr ir md timers next
                          tsts reqs del acq enc inf].
           cbn in Hn. subst inf.
           pose proof (stop_steady
             (mkState cap
                (mkRecord (user_id data) now (confidence_score data) :: log)
                err false vr sref cr ir md timers next
                (tsts ++ [ToastSuccess
                            ("Successfully recorded attendance for " +:+
                             user_id data)])
                reqs del acq enc n)) as H.
           apply H. destruct Hs as ((Hd & Ha & Hidle & Hact) & Ht & Hi & Hv).
           cbn in Hd, Ha, Hidle, Hact, Ht, Hi, Hv.
           repeat split; auto; by apply Hi.
        -- destruct s as [cap log err proc vr sref cr ir md timers next
                          tsts reqs del acq enc inf].
           destruct Hs as ((Hd & Ha & Hidle & Hact) & Ht & Hi & Hv).
           cbn in Hd, Ha, Hidle, Hact, Ht, Hi, Hv. subst del acq timers.
           unfold commit, steady, settled.
           destruct vr as [v|], cap; cbn; repeat split; auto;
             try done; try (by apply Hi);
      try (intros ? [= <-]; first [done | by apply Hv]).
Qed.

Lemma command_steady (s : State) (c : Command) :
  steady s → steady (run s (events c)).
Proof.
  intros Hs. destruct c as [r| |id blob r now]; cbn [events].
  - by apply start_steady.
  - by apply stop_steady.
  - unfold tick, run. cbn [foldl].
    apply tick_event_steady; [done|]. apply tick_event_steady; [done|].
    by apply tick_event_steady.
Qed.

Lemma exec_steady (c : Canvas) (cs : list Command) :
  steady (exec (init c) cs).
Proof.
  induction cs as [|cmd cs IH] using rev_ind.
  - pose proof AttendanceFacts.onlyActive_init. by repeat split.
  - unfold exec. rewrite foldl_app. cbn [foldl]. by apply command_steady.
Qed.

(** X5.  Between settled commands the poller never holds more than one
    timer: the active interval timers are exactly the one in [intervalRef],
    if any.  An idle poller holds nothing: no timer, no stream reference, no
    video element, and no stream with a live track. *)
Theorem at_most_one_timer_and_none_when_idle :
  ∀ (c : Canvas) (cs : list Command),
    let s := exec (init c) cs in
    activeTimers s = option_list (intervalRef s)
    ∧ (length (activeTimers s) ≤ 1)%nat
    ∧ (phase s = Idle →
       activeTimers s = [] ∧ intervalRef s = None ∧ streamRef s = None
       ∧ videoRef s = None ∧ activeCount (media s) = 0%nat).
Proof.
  intros c cs s.
  destruct (exec_steady c cs) as ((_ & _ & Hidle & Hact) & Ht & Hi & _).
  fold s in Hidle, Hact, Ht, Hi.
  split; [exact Ht|]. split.
  - rewrite Ht. destruct (intervalRef s); cbn; lia.
  - unfold phase. destruct (isCapturing s); [done|]. intros _.
    destruct (Hi eq_refl) as [Hi1 Hi2]. rewrite Ht, Hi1.
    repeat split; try done; [by apply Hidle|].
    apply BrowserFacts.activeCount_none. by rewrite <- (Hidle eq_refl).
Qed.

Lemma at_most_one_timer_witness :
  activeTimers (exec (init (mkCanvas true))
                  [StartCmd (Granted 1); StopCmd]) = [].
Proof.
  pose proof (at_most_one_timer_and_none_when_idle (mkCanvas true)
                [StartCmd (Granted 1); StopCmd]) as H.
  cbv zeta in H. destruct H as (_ & _ & H).
  apply H. vm_compute. reflexivity.
Defined.

(** X6.  The clean-up that runs when the page is left releases what the
    poller holds: after it no interval timer is active and no stream has a
    live track. *)
Theorem unmount_releases_timer_and_camera :
  ∀ (c : Canvas) (cs : list Command),
    let s := unmount (exec (init c) cs) in
    activeTimers s = [] ∧ activeCount (media s) = 0%nat.
Proof.
  intros c cs.
  destruct (exec_steady c cs) as ((_ & _ & _ & Hact) & Ht & _).
  destruct (exec (init c) cs)
    as [cap log err proc vr sref cr ir md timers next tsts reqs
        del acq enc inf].
  cbn in Hact, Ht. subst timers. unfold unmount, clearInterval.
  destruct sref as [r|], ir as [id|]; cbn;
    (split; [first [apply filter_other_timers | done]|]);
    apply BrowserFacts.activeCount_none;
    first [by apply BrowserFacts.onlyActive_stop | done].
Qed.

(** X7.  From an idle poller a start command leads to Capturing.  When the
    camera is granted, the new stream is the one held and bound to the video
    element, the old error is cleared and one interval timer is armed.  When
    the camera is denied, the error is shown, no stream is held and no timer
    is armed.  The log is untouched either way. *)
Theorem start_from_idle :
  ∀ (c : Canvas) (cs : list Command) (r : MediaResult),
    let s := exec (init c) cs in
    phase s = Idle →
    let s' := run s (startCommand r) in
    phase s' = Capturing
    ∧ attendanceLog s' = attendanceLog s
    ∧ match r with
      | Granted n =>
          error s' = None
          ∧ media s' = media s ++ [freshStream n]
          ∧ streamRef s' = Some (length (media s))
          ∧ videoRef s' ≫= srcObject = Some (length (media s))
          ∧ intervalRef s' = Some (nextTimer s)
          ∧ activeTimers s' = [nextTimer s]
      | Denied msg =>
          error s' = Some ("Could not access camera: " +:+ msg)
          ∧ media s' = media s
          ∧ streamRef s' = None
          ∧ intervalRef s' = None
          ∧ activeTimers s' = []
      end.
Proof.
  intros c cs r s Hph s'. subst s'.
  destruct (exec_steady c cs) as ((Hd & Ha & Hidle & _) & Ht & Hi & _).
  fold s in Hd, Ha, Hidle, Ht, Hi. unfold phase in Hph.
  destruct s as [cap log err proc vr sref cr ir md timers next tsts reqs
                 del acq enc inf].
  cbn in Hd, Ha, Hidle, Ht, Hi, Hph. destruct cap; [done|].
  destruct (Hi eq_refl) as [-> ->]. rewrite (Hidle eq_refl). subst.
  rewrite start_state. by destruct r.
Qed.

Lemma start_from_idle_witness :
  intervalRef (run (init (mkCanvas true)) (startCommand (Granted 1))) =
    Some 1%nat.
Proof.
  pose proof (start_from_idle (mkCanvas true) [] (Granted 1)) as H.
  cbv zeta in H. lapply H; [clear H; intros H | vm_compute; reflexivity].
  destruct H as (_ & _ & _ & _ & _ & _ & H & _).
  vm_compute in H. vm_compute. exact H.
Defined.

(** X8.  A start command while the poller is capturing is ignored: no camera
    is requested, no stream is added, no timer is armed, and the error, the
    log and the held stream stay as they are. *)
Theorem start_while_capturing_is_ignored :
  ∀ (c : Canvas) (cs : list Command) (r : MediaResult),
    let s := exec (init c) cs in
    phase s = Capturing →
    let s' := run s (startCommand r) in
    phase s' = Capturing
    ∧ media s' = media s
    ∧ streamRef s' = streamRef s
    ∧ intervalRef s' = intervalRef s
    ∧ activeTimers s' = activeTimers s
    ∧ error s' = error s
    ∧ attendanceLog s' = attendanceLog s
    ∧ acquiring s' = 0%nat.
Proof.
  intros c cs r s Hph s'. subst s'.
  destruct (exec_steady c cs) as ((Hd & Ha & _) & _ & _ & Hv).
  fold s in Hd, Ha, Hv. unfold phase in Hph.
  destruct s as [cap log err proc vr sref cr ir md timers next tsts reqs
                 del acq enc inf].
  cbn in Hd, Ha, Hv, Hph. destruct cap; [|done]. subst.
  destruct vr as [v|].
  - destruct (onloadeddata v) eqn:Hl.
    + rewrite start_refused; [done|done|by apply Hv].
    + by rewrite start_refused_loaded.
  - by rewrite start_refused_unmounted.
Qed.

Lemma start_while_capturing_witness :
  let s := exec (init (mkCanvas true)) [StartCmd (Granted 1)] in
  media (run s (startCommand (Granted 1))) = media s
  ∧ acquiring (run s (startCommand (Granted 1))) = 0%nat.
Proof.
  intros s.
  pose proof (start_while_capturing_is_ignored (mkCanvas true)
                [StartCmd (Granted 1)] (Granted 1)) as H.
  cbv zeta in H. fold s in H.
  lapply H; [clear H; intros H | vm_compute; reflexivity].
  destruct H as (_ & H1 & _ & _ & _ & _ & _ & H2). split; assumption.
Defined.

End AttendanceExtras.

(** * Further properties of the registration page *)

Module RegisterExtras.
Import Register.

(** *** The camera reference and the verify button *)

(** What one event does to [videoStreamRef] and [stremLoaded]: the reference
    is only ever replaced by a new stream, and the flag is only raised
    together with it. *)
Lemma step_stream_ref (s : State) (e : Event) :
  (is_Some (videoStreamRef s) → is_Some (videoStreamRef (step s e)))
  ∧ ((stremLoaded s = true → is_Some (videoStreamRef s)) →
     stremLoaded (step s e) = true → is_Some (videoStreamRef (step s e))).
Proof.
  destruct s as [uid imgs ld sl msg vres fm sref vr cr md urls nu reqs
                 acq enc reg ve vi].
  destruct e as [| | |r|v| |b now|i| |k o| |b|r|]; unfold step;
    unfold startCamera_request, stopCamera, toggleCamera, startCamera_resume,
      captureImage_click, captureImage_blob, createObjectURL, removeImage,
      resetForm, registerUser_click, registerUser_resume, verifyFace_click,
      verifyFace_blob, verifyFace_resume, verifyFace_catch;
    cbn -[String.append pretty trim promiseAll Nat.leb].
  - by destruct sref, vr.
  - by destruct sref, vr.
  - by destruct sref, vr.
  - destruct acq; [done|]. destruct r, vr; cbn; split; eauto.
  - done.
  - destruct (10 <=? length imgs)%nat; [done|].
    by destruct vr, cr as [[[|]]|].
  - by destruct b as [b|], enc.
  - done.
  - destruct (truthy (trim uid)); cbn -[String.append pretty]; [|done].
    by destruct imgs.
  - destruct (reg !! k); [|done].
    by destruct (promiseAll _ _).
  - destruct sref; [|done]. by destruct vr, cr as [[[|]]|].
  - destruct ve; [done|]. by destruct b.
  - destruct vi; [done|].
    destruct r as [m|resp]; [done|].
    destruct (ok resp); cbn -[String.append]; [|done].
    destruct (json resp) as [m|res]; [done|].
    by destruct (verified res).
  - done.
Qed.

Lemma run_stream_loaded (c : Canvas) (es : list Event) :
  stremLoaded (run (init c) es) = true →
  is_Some (videoStreamRef (run (init c) es)).
Proof.
  induction es as [|e es IH] using rev_ind; [done|].
  rewrite RegisterFacts.run_append. cbn [run foldl].
  by apply step_stream_ref.
Qed.

(** X9.  Once a stream has been granted the page never forgets it:
    [stopCamera] stops the tracks but keeps the reference, so no event turns
    [videoStreamRef] back to [null].  The stream-loaded flag is only ever
    raised with a reference in place, so whenever the verify button is
    enabled, [verifyFace] gets past its "Camera not available" test and
    shows "Verifying...". *)
Theorem stream_reference_is_never_cleared :
  ∀ (c : Canvas) (es : list Event) (e : Event),
    let s := run (init c) es in
    (is_Some (videoStreamRef s) → is_Some (videoStreamRef (step s e)))
    ∧ (stremLoaded s = true → is_Some (videoStreamRef s))
    ∧ (verifyDisabled s = false →
       message (step s ClickVerify) = mkMessage "Verifying..." info).
Proof.
  intros c es e s. split; [apply step_stream_ref|].
  split; [apply run_stream_loaded|].
  intros Hen. unfold verifyDisabled in Hen.
  apply orb_false_elim in Hen as [_ Hsl%negb_false_iff].
  destruct (run_stream_loaded c es Hsl) as [ref Href]. fold s in Href.
  destruct s as [uid imgs ld sl msg vres fm sref vr cr md urls nu reqs
                 acq enc reg ve vi].
  cbn in Href. subst sref. unfold step, verifyFace_click.
  by destruct vr, cr as [[[|]]|].
Qed.

Lemma stream_reference_witness :
  is_Some (videoStreamRef (run (RegisterRuns.withImages 0) [Cleanup]))
  ∧ message (step (RegisterRuns.withImages 0) ClickVerify) =
      mkMessage "Verifying..." info.
Proof.
  pose proof (stream_reference_is_never_cleared (mkCanvas true)
                (startCamera (Granted 1)) Cleanup) as H.
  cbv zeta in H. destruct H as (H1 & _ & H3).
  split.
  - apply H1. vm_compute. by eexists.
  - apply H3. vm_compute. reflexivity.
Defined.

(** *** Single-shot verification *)

(** X10.  [verifyFace] with a camera, a video element and a canvas to draw
    on, run to completion with no other verification in flight.  The busy flag is off at the end whatever
    happens, and the pending images are untouched.  Without a blob nothing
    is sent and the failure to capture is reported.  Otherwise one
    [POST /verify] is sent; a decoded body of an ok response is stored as
    the result and reported as success or failure by its [verified] flag;
    a network error, a status outside 200-299 or an undecodable body is
    reported as an error and clears the result. *)
Theorem verifyFace_outcome :
  ∀ (s : State) (ref : StreamRef) (v : VideoElement) (c : Canvas)
    (b : option Blob) (r : FetchResult VerificationResult),
    videoStreamRef s = Some ref → videoRef s = Some v →
    canvasRef s = Some c → context2d c = true →
    verifyInflight s = 0%nat →
    let s' := run s [ClickVerify; VerifyBlob b; VerifySettled r] in
    isLoading s' = false
    ∧ capturedImages s' = capturedImages s
    ∧ match b with
      | None =>
          requests s' = requests s
          ∧ verificationResult s' = None
          ∧ message s' =
              mkMessage "Error: Failed to capture image for verification"
                error
      | Some blob =>
          requests s' = requests s ++ [PostVerify blob "verify.jpg"]
          ∧ match r with
            | NetworkError m =>
                verificationResult s' = None
                ∧ message s' = mkMessage ("Error: " +:+ m) error
            | Responded resp =>
                if ok resp then
                  match json resp with
                  | inl m =>
                      verificationResult s' = None
                      ∧ message s' = mkMessage ("Error: " +:+ m) error
                  | inr res =>
                      verificationResult s' = Some res
                      ∧ message s' =
                          if verified res
                          then mkMessage
                                 ("Verification successful! User: " +:+
                                  template (user_id res)) success
                          else mkMessage "Verification failed" error
                  end
                else
                  verificationResult s' = None
                  ∧ message s' =
                      mkMessage ("Error: Verification failed: " +:+
                                 statusText resp) error
            end
      end.
Proof.
  intros [uid imgs ld sl msg vres fm sref vr cr md urls nu reqs
          acq enc reg ve vi] ref v c b r.
  cbn [videoStreamRef videoRef canvasRef verifyInflight].
  intros -> -> -> Hc ->.
  unfold run, step, verifyFace_click, verifyFace_blob, verifyFace_resume,
    verifyFace_catch.
  cbn -[String.append]. rewrite Hc. cbn -[String.append].
  destruct b as [blob|]; cbn -[String.append]; [|done].
  destruct r as [m|resp]; cbn -[String.append]; [done|].
  destruct (ok resp); cbn -[String.append]; [|done].
  destruct (json resp) as [m|res]; cbn -[String.append]; [done|].
  by destruct (verified res).
Qed.

Lemma verifyFace_outcome_witness :
  message
    (run (RegisterRuns.withImages 0)
       [ClickVerify; VerifyBlob (Some RegisterRuns.frame);
        VerifySettled
          (Responded (mkResponse 503 "Service Unavailable" (inl "no body")))]) =
    mkMessage "Error: Verification failed: Service Unavailable" error.
Proof.
  pose proof (verifyFace_outcome (RegisterRuns.withImages 0) 0%nat
                (mkVideo (Some 0%nat) 0 false) (mkCanvas true)
                (Some RegisterRuns.frame)
                (Responded (mkResponse 503 "Service Unavailable" (inl "no body"))))
    as H.
  do 5 (lapply H; [clear H; intros H | vm_compute; reflexivity]).
  vm_compute in H. vm_compute. by destruct H as (_ & _ & _ & _ & H).
Defined.

(** X11.  [verifyFace] with a camera but nothing to draw on (no video
    element, no canvas, or no 2D context) leaves through [finally] only:
    nothing is sent, the busy flag is taken down again and the result is
    kept, but the message stays "Verifying...". *)
Theorem verifyFace_without_surface :
  ∀ (s : State) (ref : StreamRef),
    videoStreamRef s = Some ref →
    videoRef s = None ∨ canvasRef s = None
    ∨ canvasRef s = Some (mkCanvas false) →
    let s' := step s ClickVerify in
    message s' = mkMessage "Verifying..." info
    ∧ isLoading s' = false
    ∧ requests s' = requests s
    ∧ verifyEncoding s' = verifyEncoding s
    ∧ verificationResult s' = verificationResult s.
Proof.
  intros [uid imgs ld sl msg vres fm sref vr cr md urls nu reqs
          acq enc reg ve vi] ref.
  cbn [videoStreamRef videoRef canvasRef]. intros -> Hno.
  unfold step, verifyFace_click.
  destruct vr, cr as [[[|]]|]; cbn; try done;
    destruct Hno as [Hno|[Hno|Hno]]; discriminate.
Qed.

Lemma verifyFace_without_surface_witness :
  message (step (run (init (mkCanvas false)) (startCamera (Granted 1)))
             ClickVerify) = mkMessage "Verifying..." info.
Proof.
  pose proof (verifyFace_without_surface
                (run (init (mkCanvas false)) (startCamera (Granted 1)))
                0%nat) as H.
  lapply H; [clear H; intros H | vm_compute; reflexivity].
  lapply H; [clear H; intros H | right; right; vm_compute; reflexivity].
  by destruct H as (H & _).
Defined.

(** *** What the buttons let through *)

(** X12.  The handlers repeat the tests of the buttons.  Whenever the
    register button is enabled, [registerUser] passes its own validation:
    it shows "Registering user...", sends one request per pending image and
    raises the busy flag, which disables the button until the registration
    has settled.  Whenever the capture button is enabled, [captureImage]
    does not report the cap. *)
Theorem enabled_buttons_pass_validation :
  ∀ (s : State),
    (registerDisabled s = false →
     let s' := step s ClickRegister in
     message s' = mkMessage "Registering user..." info
     ∧ requests s' =
         requests s ++ registerRequests (userId s) (capturedImages s)
     ∧ length (registerRequests (userId s) (capturedImages s)) =
         length (capturedImages s)
     ∧ isLoading s' = true
     ∧ registerDisabled s' = true)
    ∧ (captureDisabled s = false →
       message (step s ClickCapture) = message s
       ∧ capturedImages (step s ClickCapture) = capturedImages s).
Proof.
  intros s. split.
  - unfold registerDisabled. intros Hen.
    apply orb_false_elim in Hen as [Hen Hid%negb_false_iff].
    apply orb_false_elim in Hen as [_ Himgs%Nat.eqb_neq].
    rewrite RegisterFacts.registerUser_click_valid.
    + destruct s. unfold registerRequests. cbn. by rewrite length_fmap.
    + intros H. by rewrite H in Hid.
    + intros H. by rewrite H in Himgs.
  - unfold captureDisabled. intros Hen.
    apply orb_false_elim in Hen as [_ Hcap].
    unfold step, captureImage_click. rewrite Hcap.
    destruct s as [uid imgs ld sl msg vres fm sref vr cr md urls nu reqs
                   acq enc reg ve vi].
    by destruct vr, cr as [[[|]]|].
Qed.

Lemma enabled_buttons_witness :
  let s := run (RegisterRuns.withImages 2) [Input "u1"] in
  isLoading (step s ClickRegister) = true
  ∧ message (step s ClickCapture) = message s.
Proof.
  intros s.
  destruct (enabled_buttons_pass_validation s) as [H1 H2].
  lapply H1; [clear H1; intros H1 | vm_compute; reflexivity].
  lapply H2; [clear H2; intros H2 | vm_compute; reflexivity].
  cbv zeta in H1. destruct H1 as (_ & _ & _ & H1 & _).
  destruct H2 as (H2 & _). split; assumption.
Defined.

(** *** Blank identifiers *)

(** What [strip] removes is a sequence of characters that [ws] accepts. *)
Lemma strip_split (ws : list Ascii.ascii → bool) (s : list Ascii.ascii) :
  ∃ cs, Forall (λ c, ws c = true) cs ∧ s = concat cs ++ strip ws s.
Proof.
  remember (length s) as n eqn:Hn. revert s Hn.
  induction n as [n IH] using lt_wf_ind. intros s ->.
  assert (Hrec : ∀ w r, s = w ++ r → w ≠ [] → ws w = true →
            ∃ cs, Forall (λ c, ws c = true) cs ∧ s = concat cs ++ strip ws r).
  { intros w r -> Hw Hws.
    destruct (IH (length r)) with (s := r) as (cs & Hcs & Hr); [|done|].
    { rewrite length_app. destruct w; [done|]. cbn. lia. }
    exists (w :: cs). split; [by constructor|].
    cbn [concat]. by rewrite <- app_assoc, <- Hr. }
  assert (Hstop : ∃ cs, Forall (λ c, ws c = true) cs ∧ s = concat cs ++ s).
  { exists []. by split. }
  destruct s as [|a r1]; [done|]. cbn [strip].
  destruct (ws [a]) eqn:Ha; [by apply (Hrec [a])|].
  destruct r1 as [|b r2]; [done|].
  destruct (ws [a; b]) eqn:Hb; [by apply (Hrec [a; b])|].
  destruct r2 as [|c r3]; [done|].
  destruct (ws [a; b; c]) eqn:Hc; [by apply (Hrec [a; b; c])|done].
Qed.

Lemma isWhiteSpace_utf8 (w : list Ascii.ascii) :
  isWhiteSpace w = true → ∃ c, c ∈ whiteSpace ∧ w = utf8 c.
Proof.
  unfold isWhiteSpace. rewrite bool_decide_eq_true, list_elem_of_fmap.
  intros (c & -> & Hc). by exists c.
Qed.

(** [trimStart] removes a white-space character at the front, whatever
    follows it. *)
Lemma trimStart_whiteSpace (c : N) (s : list Ascii.ascii) :
  c ∈ whiteSpace → trimStart (utf8 c ++ s) = trimStart s.
Proof.
  unfold whiteSpace. rewrite !elem_of_cons, elem_of_nil.
  intros H. repeat (destruct H as [-> | H]; [reflexivity|]). done.
Qed.

Lemma trimStart_concat (cs : list N) :
  Forall (λ c, c ∈ whiteSpace) cs → trimStart (concat (utf8 <$> cs)) = [].
Proof.
  induction 1 as [|c cs Hc _ IH]; [done|].
  cbn [fmap list_fmap concat]. by rewrite trimStart_whiteSpace.
Qed.

Lemma reverse_concat (cs : list (list Ascii.ascii)) :
  reverse (concat cs) = concat (reverse (reverse <$> cs)).
Proof.
  induction cs as [|c cs IH]; [done|].
  cbn [concat fmap list_fmap]. rewrite reverse_app, reverse_cons, IH.
  rewrite concat_app. cbn [concat]. by rewrite app_nil_r.
Qed.

Lemma chunks_code_points (cs : list (list Ascii.ascii)) :
  Forall (λ c, isWhiteSpace c = true) cs →
  ∃ ps, Forall (λ p, p ∈ whiteSpace) ps ∧ concat cs = concat (utf8 <$> ps).
Proof.
  induction 1 as [|c cs Hc _ (ps & Hps & IH)]; [by exists []|].
  apply isWhiteSpace_utf8 in Hc as (p & Hp & ->).
  exists (p :: ps). split; [by constructor|].
  cbn [concat fmap list_fmap]. by rewrite IH.
Qed.

(** The trimmed string is empty exactly for strings of white space. *)
Lemma trim_whiteSpaceOnly (u : string) :
  trim u = EmptyString ↔ whiteSpaceOnly u.
Proof.
  unfold trim, whiteSpaceOnly. set (l := String.list_ascii_of_string u).
  clearbody l. split.
  - intros H. apply (f_equal String.list_ascii_of_string) in H.
    rewrite String.list_ascii_of_string_of_list_ascii in H. cbn in H.
    unfold trimEnd in H. apply (f_equal reverse) in H.
    rewrite reverse_involutive, reverse_nil in H.
    destruct (strip_split isWhiteSpace l) as (cs1 & Hcs1 & Hl).
    fold (trimStart l) in Hl.
    destruct (strip_split (λ w, isWhiteSpace (reverse w))
                (reverse (trimStart l))) as (cs2 & Hcs2 & Ht).
    rewrite H, app_nil_r in Ht. apply (f_equal reverse) in Ht.
    rewrite reverse_involutive, reverse_concat in Ht.
    rewrite Ht, <- concat_app in Hl. rewrite Hl.
    apply chunks_code_points, Forall_app. split; [done|].
    apply Forall_forall. intros w Hw.
    apply elem_of_reverse, list_elem_of_fmap in Hw as (w' & -> & Hw').
    by apply (proj1 (Forall_forall _ _) Hcs2).
  - intros (cs & Hcs & ->). by rewrite trimStart_concat.
Qed.

(** [trim] at work: spaces around a name; an ideographic space in front and
    a no-break space and a line separator behind; and a zero-width space
    (U+200B), which is not white space and stays. *)
Remark trim_examples :
  trim "  alice " = "alice"
  ∧ trim (String.string_of_list_ascii
            (utf8 0x3000 ++ String.list_ascii_of_string "u 1" ++
             utf8 0xA0 ++ utf8 0x2028)) = "u 1"
  ∧ trim (String.string_of_list_ascii (utf8 0x200B)) ≠ EmptyString.
Proof. vm_compute. repeat split; try reflexivity. discriminate. Qed.

(** X13.  [registerUser] asks for a user id exactly when the identifier is
    made of white space and line terminators only, that is of the characters
    [trim] removes (the empty identifier included); such an identifier is
    never sent. *)
Theorem blank_identifier_is_refused :
  ∀ (s : State),
    let s' := step s ClickRegister in
    (message s' = mkMessage "Please enter a user ID" error
     ↔ whiteSpaceOnly (userId s))
    ∧ (whiteSpaceOnly (userId s) →
       requests s' = requests s ∧ isLoading s' = isLoading s).
Proof.
  intros s s'. subst s'. rewrite <- trim_whiteSpaceOnly.
  rewrite <- RegisterFacts.truthy_false.
  unfold step, registerUser_click.
  destruct (truthy (trim (userId s))) eqn:E; cbn [negb].
  - split; [|done]. split; [|done].
    destruct (length (capturedImages s) =? 0)%nat;
      destruct s; cbn; discriminate.
  - destruct s; cbn. by repeat split.
Qed.

(** An identifier of a space and an ideographic space (U+3000). *)
Lemma blank_identifier_witness :
  let u := String.string_of_list_ascii (utf8 0x20 ++ utf8 0x3000) in
  requests
    (step (run (RegisterRuns.withImages 1) [Input u]) ClickRegister) = [].
Proof.
  intros u.
  pose proof (blank_identifier_is_refused
                (run (RegisterRuns.withImages 1) [Input u])) as H.
  cbv zeta in H. destruct H as (_ & H).
  lapply H; [clear H; intros (H & _) |].
  - rewrite H. vm_compute. reflexivity.
  - exists [0x20; 0x3000]%N. split.
    + repeat constructor.
    + vm_compute. reflexivity.
Defined.

(** *** A registration that is under way *)

(** Events other than the settling of a registration keep every suspended
    registration where it is in the list. *)
Lemma step_registering (s : State) (e : Event) (k : nat)
    (c : RegisterClosure) :
  match e with RegisterSettled _ _ => False | _ => True end →
  registering s !! k = Some c → registering (step s e) !! k = Some c.
Proof.
  intros He.
  destruct s as [uid imgs ld sl msg vres fm sref vr cr md urls nu reqs
                 acq enc reg ve vi].
  destruct e as [| | |r|v| |b now|i| |k' o| |b|r|]; try done; unfold step;
    unfold startCamera_request, stopCamera, toggleCamera, startCamera_resume,
      captureImage_click, captureImage_blob, createObjectURL, removeImage,
      resetForm, registerUser_click, registerUser_resume, verifyFace_click,
      verifyFace_blob, verifyFace_resume, verifyFace_catch;
    cbn -[String.append pretty trim promiseAll Nat.leb].
  - by destruct sref, vr.
  - by destruct sref, vr.
  - by destruct sref, vr.
  - destruct acq; [done|]. by destruct r, vr.
  - destruct (10 <=? length imgs)%nat; [done|].
    by destruct vr, cr as [[[|]]|].
  - by destruct b as [b|], enc.
  - destruct (truthy (trim uid)); cbn -[String.append pretty]; [|done].
    destruct imgs; [done|]. cbn. intros H. by apply lookup_app_l_Some.
  - destruct sref; [|done]. by destruct vr, cr as [[[|]]|].
  - destruct ve; [done|]. by destruct b.
  - destruct vi; [done|].
    destruct r as [m|resp]; [done|].
    destruct (ok resp); cbn -[String.append]; [|done].
    destruct (json resp) as [m|res]; [done|].
    by destruct (verified res).
Qed.

(** X14.  A registration reports what was in the form when the button was
    pressed.  Whatever is done to the form while the requests are out
    (typing another identifier, removing images, resetting, taking photos),
    a registration whose submissions all succeed announces the identifier
    and the number of images of the moment of the click, and lowers the busy
    flag. *)
Theorem register_reports_the_form_as_clicked :
  ∀ (s : State) (es : list Event) (o : nat → Settled),
    trim (userId s) ≠ EmptyString → capturedImages s ≠ [] →
    Forall (λ e, match e with RegisterSettled _ _ => False | _ => True end)
      es →
    (∀ i, (i < length (capturedImages s))%nat →
          submission (result (o i)) = None) →
    let s' := step (run (step s ClickRegister) es)
                (RegisterSettled (length (registering s)) o) in
    message s' =
      mkMessage ("User " +:+ userId s +:+ " registered successfully with "
                 +:+ pretty (length (capturedImages s)) +:+ " images")
        success
    ∧ isLoading s' = false.
Proof.
  intros s es o Hid Himgs Hes Hok s'.
  assert (Hk : registering (run (step s ClickRegister) es)
                 !! length (registering s)
               = Some (mkClosure (userId s) (length (capturedImages s)))).
  { assert (H0 : registering (step s ClickRegister)
                   !! length (registering s)
                 = Some (mkClosure (userId s) (length (capturedImages s)))).
    { rewrite (RegisterFacts.registerUser_click_valid s Hid Himgs).
      cbn [registering setSuspended]. by rewrite list_lookup_middle. }
    revert H0. generalize (step s ClickRegister). clear -Hes.
    induction Hes as [|e es He _ IH]; intros s0 H0; [done|].
    cbn [run foldl]. apply IH. by apply step_registering. }
  subst s'. revert Hk. generalize (run (step s ClickRegister) es).
  intros s2 Hk. unfold step. rewrite Hk. unfold registerUser_resume.
  cbn [closure_count closure_userId].
  rewrite (proj2 (RegisterFacts.promiseAll_fulfils _ _) Hok).
  by destruct s2.
Qed.

Lemma register_reports_witness :
  message
    (step (run (step (run (RegisterRuns.withImages 2) [Input "u1"])
                  ClickRegister)
             [Input "u2"; ClickReset])
       (RegisterSettled 0 (λ _, RegisterRuns.accepted 1))) =
    mkMessage "User u1 registered successfully with 2 images" success.
Proof.
  pose proof (register_reports_the_form_as_clicked
                (run (RegisterRuns.withImages 2) [Input "u1"])
                [Input "u2"; ClickReset] (λ _, RegisterRuns.accepted 1))
    as H.
  lapply H; [clear H; intros H | vm_compute; discriminate].
  lapply H; [clear H; intros H | vm_compute; discriminate].
  lapply H; [clear H; intros H | by repeat constructor].
  lapply H; [clear H; intros H | intros i _; vm_compute; reflexivity].
  vm_compute in H. vm_compute. by destruct H as (H & _).
Defined.

(** *** The error a failed registration shows *)

Lemma foldl_earlier_min (l : list (nat * string)) (acc : option (nat * string))
    (t : nat) (m : string) :
  foldl earlier acc l = Some (t, m) →
  (acc = Some (t, m) ∨ (t, m) ∈ l)
  ∧ (∀ x, x ∈ l → (t ≤ x.1)%nat)
  ∧ (∀ y, acc = Some y → (t ≤ y.1)%nat).
Proof.
  revert acc. induction l as [|x l IH]; intros acc H.
  - cbn in H. subst acc. split; [by left|]. split.
    + by intros x ?%elem_of_nil.
    + intros y [= <-]. done.
  - cbn [foldl] in H. destruct (IH _ H) as (Hin & Hl & Hacc).
    unfold earlier in Hin, Hacc. destruct acc as [y|].
    + destruct (x.1 <? y.1)%nat eqn:E.
      * apply Nat.ltb_lt in E. specialize (Hacc x eq_refl).
        split; [|split].
        -- right. destruct Hin as [[= <-]|Hin]; [left|by right].
        -- intros z [->|Hz]%elem_of_cons; [done|by apply Hl].
        -- intros ? [= <-]. lia.
      * apply Nat.ltb_ge in E. specialize (Hacc y eq_refl).
        split; [|split].
        -- destruct Hin as [Hin|Hin]; [by left|right; by right].
        -- intros z [->|Hz]%elem_of_cons; [lia|by apply Hl].
        -- by intros ? [= <-].
    + specialize (Hacc x eq_refl). split; [|split].
      * right. destruct Hin as [[= <-]|Hin]; [left|by right].
      * intros z [->|Hz]%elem_of_cons; [done|by apply Hl].
      * done.
Qed.

Lemma elem_of_rejections (n : nat) (o : nat → Settled) (t : nat)
    (m : string) :
  (t, m) ∈ rejections n o
  ↔ ∃ i, (i < n)%nat ∧ submission (result (o i)) = Some m
         ∧ t = settledAt (o i).
Proof.
  unfold rejections. rewrite list_elem_of_omap. split.
  - intros (i & Hi%elem_of_seq & Hf).
    apply fmap_Some in Hf as (m' & Hm & [= -> ->]).
    exists i. split; [lia|done].
  - intros (i & Hi & Hm & ->). exists i. split.
    + apply elem_of_seq. lia.
    + by rewrite Hm.
Qed.

(** X15.  When a registration fails, the message shown is "Error: "
    followed by the reason of one failed submission, and that submission
    failed no later than any other failed one: the page reports the first
    failure and nothing about the others. *)
Theorem failed_registration_shows_first_failure :
  ∀ (s : State) (k : nat) (c : RegisterClosure) (o : nat → Settled),
    registering s !! k = Some c →
    (∃ j, (j < closure_count c)%nat ∧ submission (result (o j)) ≠ None) →
    ∃ i m,
      (i < closure_count c)%nat
      ∧ submission (result (o i)) = Some m
      ∧ (∀ j, (j < closure_count c)%nat →
              submission (result (o j)) ≠ None →
              (settledAt (o i) ≤ settledAt (o j))%nat)
      ∧ message (step s (RegisterSettled k o)) =
          mkMessage ("Error: " +:+ m) error.
Proof.
  intros s k c o Hk (j & Hj & Hfail).
  destruct (promiseAll (closure_count c) o) as [m|] eqn:E.
  - unfold promiseAll in E.
    apply fmap_Some in E as ([t m'] & Hfold & ->). cbn [snd].
    destruct (foldl_earlier_min _ _ _ _ Hfold) as ([Hin|Hin] & Hmin & _);
      [done|].
    apply elem_of_rejections in Hin as (i & Hi & Hm & ->).
    exists i, m'. split; [done|]. split; [done|]. split.
    + intros j' Hj' Hf. destruct (submission (result (o j'))) as [mj|] eqn:Ej;
        [|done].
      apply (Hmin (settledAt (o j'), mj)).
      apply elem_of_rejections. by exists j'.
    + unfold step. rewrite Hk. unfold registerUser_resume, promiseAll.
      rewrite Hfold. by destruct s.
  - exfalso. apply Hfail.
    by apply (proj1 (RegisterFacts.promiseAll_fulfils _ _) E).
Qed.

Lemma failed_registration_witness :
  ∃ i m,
    (i < 2)%nat
    ∧ message
        (run (run (RegisterRuns.withImages 2) [Input "u1"])
           (registerUser
              (λ i, if decide (i = 1%nat) then RegisterRuns.refused 2
                    else RegisterRuns.accepted 3))) =
        mkMessage ("Error: " +:+ m) error.
Proof.
  destruct (failed_registration_shows_first_failure
              (step (run (RegisterRuns.withImages 2) [Input "u1"])
                 ClickRegister)
              0 (mkClosure "u1" 2)
              (λ i, if decide (i = 1%nat) then RegisterRuns.refused 2
                    else RegisterRuns.accepted 3))
    as (i & m & Hi & _ & _ & Hm).
  - vm_compute. reflexivity.
  - exists 1%nat. split; [vm_compute; lia | vm_compute; discriminate].
  - exists i, m. split; [exact Hi | exact Hm].
Defined.

(** *** Runs of settled commands *)

(** Events that are not about the camera leave the streams and the held
    reference alone. *)
Lemma step_camera_frame (s : State) (e : Event) :
  match e with
  | Effect | Cleanup | ClickToggle | MediaSettled _ => False
  | _ => True
  end →
  media (step s e) = media s
  ∧ videoStreamRef (step s e) = videoStreamRef s.
Proof.
  intros He.
  destruct s as [uid imgs ld sl msg vres fm sref vr cr md urls nu reqs
                 acq enc reg ve vi].
  destruct e as [| | |r|v| |b now|i| |k o| |b|r|]; try done; unfold step;
    unfold captureImage_click, captureImage_blob, createObjectURL,
      removeImage, resetForm, registerUser_click, registerUser_resume,
      verifyFace_click, verifyFace_blob, verifyFace_resume, verifyFace_catch;
    cbn -[String.append pretty trim promiseAll Nat.leb].
  - destruct (10 <=? length imgs)%nat; [done|].
    by destruct vr, cr as [[[|]]|].
  - by destruct b as [b|], enc.
  - destruct (truthy (trim uid)); cbn -[String.append pretty]; [|done].
    by destruct imgs.
  - destruct (reg !! k); [|done].
    by destruct (promiseAll _ _).
  - destruct sref; [|done]. by destruct vr, cr as [[[|]]|].
  - destruct ve; [done|]. by destruct b.
  - destruct vi; [done|].
    destruct r as [m|resp]; [done|].
    destruct (ok resp); cbn -[String.append]; [|done].
    destruct (json resp) as [m|res]; [done|].
    by destruct (verified res).
Qed.

Lemma run_camera_frame (s : State) (es : list Event) :
  Forall (λ e, match e with
               | Effect | Cleanup | ClickToggle | MediaSettled _ => False
               | _ => True
               end) es →
  tracked s → tracked (run s es).
Proof.
  intros Hes. revert s. induction Hes as [|e es He _ IH]; intros s Ht; [done|].
  cbn [run foldl]. apply IH. unfold tracked.
  by destruct (step_camera_frame s e He) as [-> ->].
Qed.

(** A settled toggle is a stop followed by a settled start. *)
Lemma toggle_tracked (s : State) (r : MediaResult) :
  tracked s → tracked (run s [ClickToggle; MediaSettled r]).
Proof.
  intros Ht.
  change (run s [ClickToggle; MediaSettled r])
    with (run (stopCamera (setFacingMode flip s)) (startCamera r)).
  apply RegisterFacts.startCamera_tracked.
  assert (Ht' : tracked (setFacingMode flip s)) by by destruct s.
  destruct (RegisterFacts.stopCamera_releases _ Ht') as (H & _).
  by apply BrowserFacts.onlyActive_weaken.
Qed.

Lemma command_tracked (s : State) (c : Command) :
  tracked s → tracked (run s (events c)).
Proof.
  intros Ht. destruct c; cbn [events].
  - by apply RegisterFacts.startCamera_tracked.
  - apply (RegisterFacts.call_tracked s Stop Ht).
  - by apply toggle_tracked.
  - apply run_camera_frame; [by repeat constructor|done].
  - apply run_camera_frame; [by repeat constructor|done].
  - apply run_camera_frame; [by repeat constructor|done].
  - apply run_camera_frame; [by repeat constructor|done].
  - apply run_camera_frame; [by repeat constructor|done].
  - apply run_camera_frame; [by repeat constructor|done].
Qed.

(** What one event does to the suspended continuations, the busy flag and
    the number of pending images. *)
Lemma step_rest (s : State) (e : Event) :
  let s' := step s e in
  match e with
  | Effect | ClickToggle =>
      acquiring s' = S (acquiring s) ∧ encoding s' = encoding s
      ∧ registering s' = registering s
      ∧ verifyEncoding s' = verifyEncoding s
      ∧ verifyInflight s' = verifyInflight s
      ∧ isLoading s' = isLoading s
      ∧ capturedImages s' = capturedImages s
  | MediaSettled _ =>
      acquiring s' = pred (acquiring s) ∧ encoding s' = encoding s
      ∧ registering s' = registering s
      ∧ verifyEncoding s' = verifyEncoding s
      ∧ verifyInflight s' = verifyInflight s
      ∧ isLoading s' = isLoading s
      ∧ capturedImages s' = capturedImages s
  | ClickCapture =>
      acquiring s' = acquiring s
      ∧ (encoding s' = encoding s
         ∨ (encoding s' = S (encoding s)
            ∧ (length (capturedImages s) < 10)%nat))
      ∧ registering s' = registering s
      ∧ verifyEncoding s' = verifyEncoding s
      ∧ verifyInflight s' = verifyInflight s
      ∧ isLoading s' = isLoading s
      ∧ capturedImages s' = capturedImages s
  | CaptureBlob _ _ =>
      acquiring s' = acquiring s
      ∧ ((encoding s = 0%nat ∧ encoding s' = 0%nat
          ∧ capturedImages s' = capturedImages s)
         ∨ (encoding s = S (encoding s')
            ∧ (length (capturedImages s') ≤ S (length (capturedImages s)))%nat))
      ∧ registering s' = registering s
      ∧ verifyEncoding s' = verifyEncoding s
      ∧ verifyInflight s' = verifyInflight s
      ∧ isLoading s' = isLoading s
  | ClickRegister =>
      acquiring s' = acquiring s ∧ encoding s' = encoding s
      ∧ ((registering s' = registering s ∧ isLoading s' = isLoading s)
         ∨ ∃ c, registering s' = registering s ++ [c])
      ∧ verifyEncoding s' = verifyEncoding s
      ∧ verifyInflight s' = verifyInflight s
      ∧ capturedImages s' = capturedImages s
  | RegisterSettled k _ =>
      acquiring s' = acquiring s ∧ encoding s' = encoding s
      ∧ ((registering s !! k = None ∧ registering s' = registering s
          ∧ isLoading s' = isLoading s)
         ∨ (registering s' = delete k (registering s)
            ∧ isLoading s' = false))
      ∧ verifyEncoding s' = verifyEncoding s
      ∧ verifyInflight s' = verifyInflight s
      ∧ capturedImages s' = capturedImages s
  | ClickVerify =>
      acquiring s' = acquiring s ∧ encoding s' = encoding s
      ∧ registering s' = registering s
      ∧ ((verifyEncoding s' = verifyEncoding s
          ∧ (isLoading s' = isLoading s ∨ isLoading s' = false))
         ∨ verifyEncoding s' = S (verifyEncoding s))
      ∧ verifyInflight s' = verifyInflight s
      ∧ capturedImages s' = capturedImages s
  | VerifyBlob _ =>
      acquiring s' = acquiring s ∧ encoding s' = encoding s
      ∧ registering s' = registering s
      ∧ ((verifyEncoding s = 0%nat ∧ verifyEncoding s' = 0%nat
          ∧ verifyInflight s' = verifyInflight s
          ∧ isLoading s' = isLoading s)
         ∨ (verifyEncoding s = S (verifyEncoding s')
            ∧ ((verifyInflight s' = verifyInflight s ∧ isLoading s' = false)
               ∨ verifyInflight s' = S (verifyInflight s))))
      ∧ capturedImages s' = capturedImages s
  | VerifySettled _ =>
      acquiring s' = acquiring s ∧ encoding s' = encoding s
      ∧ registering s' = registering s
      ∧ verifyEncoding s' = verifyEncoding s
      ∧ ((verifyInflight s = 0%nat ∧ verifyInflight s' = 0%nat
          ∧ isLoading s' = isLoading s)
         ∨ (verifyInflight s = S (verifyInflight s')
            ∧ isLoading s' = false))
      ∧ capturedImages s' = capturedImages s
  | Cleanup | Input _ | ClickRemove _ | ClickReset =>
      acquiring s' = acquiring s ∧ encoding s' = encoding s
      ∧ registering s' = registering s
      ∧ verifyEncoding s' = verifyEncoding s
      ∧ verifyInflight s' = verifyInflight s
      ∧ isLoading s' = isLoading s
      ∧ (length (capturedImages s') ≤ length (capturedImages s))%nat
  end.
Proof.
  destruct s as [uid imgs ld sl msg vres fm sref vr cr md urls nu reqs
                 acq enc reg ve vi].
  destruct e as [| | |r|v| |b now|i| |k o| |b|r|]; unfold step;
    unfold startCamera_request, stopCamera, toggleCamera, startCamera_resume,
      captureImage_click, captureImage_blob, createObjectURL, removeImage,
      resetForm, registerUser_click, registerUser_resume, verifyFace_click,
      verifyFace_blob, verifyFace_resume, verifyFace_catch;
    cbn -[String.append pretty trim promiseAll Nat.leb].
  - by destruct sref, vr.
  - by destruct sref, vr.
  - by destruct sref, vr.
  - destruct acq; [done|]. by destruct r, vr.
  - done.
  - destruct (10 <=? length imgs)%nat eqn:E; [by auto 10|].
    apply Nat.leb_gt in E.
    destruct vr, cr as [[[|]]|]; cbn; auto 10.
  - destruct enc as [|n]; [by destruct b; auto 10|].
    destruct b as [b|]; cbn -[String.append pretty];
      repeat split; try done; right; split; try done.
    + rewrite length_app. cbn. lia.
    + lia.
  - repeat split; try done. apply length_filter.
  - destruct (truthy (trim uid)); cbn -[String.append pretty]; [|by auto 10].
    destruct imgs; [by auto 10|]. cbn -[String.append pretty].
    repeat split; try done. right. by eexists.
  - destruct (reg !! k) eqn:E; [|by auto 10].
    destruct (promiseAll _ _); cbn -[String.append pretty]; auto 10.
  - destruct sref; [|by auto 10].
    destruct vr, cr as [[[|]]|]; cbn; auto 10.
  - destruct ve; [by auto 10|]. destruct b; cbn -[String.append]; auto 10.
  - destruct vi; [by auto 10|].
    destruct r as [m|resp]; [by auto 10|].
    destruct (ok resp); cbn -[String.append]; [|by auto 10].
    destruct (json resp) as [m|res]; [by auto 10|].
    destruct (verified res); auto 10.
  - repeat split; try done. cbn. lia.
Qed.

(** A settled command leaves nothing suspended, keeps the cap and leaves the
    busy flag down. *)
Lemma command_calm (s : State) (c : Command) :
  calm s → (length (capturedImages s) ≤ 10)%nat → isLoading s = false →
  calm (run s (events c))
  ∧ (length (capturedImages (run s (events c))) ≤ 10)%nat
  ∧ isLoading (run s (events c)) = false.
Proof.
  intros (Ha & He & Hr & Hve & Hvi) Hcap Hld. unfold calm.
  destruct c as [r| |r|v|b now|i| |o|b r]; cbn [events];
    unfold startCamera, captureImage, registerUser, run; cbn [foldl].
  - pose proof (step_rest s Effect) as H1.
    pose proof (step_rest (step s Effect) (MediaSettled r)) as H2.
    cbv zeta in H1, H2.
    destruct H1 as (? & ? & ? & ? & ? & ? & E1).
    destruct H2 as (? & ? & ? & ? & ? & ? & E2).
    rewrite E2, E1. repeat split; congruence || lia.
  - pose proof (step_rest s Cleanup) as H1. cbv zeta in H1.
    destruct H1 as (? & ? & ? & ? & ? & ? & ?).
    repeat split; congruence || lia.
  - pose proof (step_rest s ClickToggle) as H1.
    pose proof (step_rest (step s ClickToggle) (MediaSettled r)) as H2.
    cbv zeta in H1, H2.
    destruct H1 as (? & ? & ? & ? & ? & ? & E1).
    destruct H2 as (? & ? & ? & ? & ? & ? & E2).
    rewrite E2, E1. repeat split; congruence || lia.
  - pose proof (step_rest s (Input v)) as H1. cbv zeta in H1.
    destruct H1 as (? & ? & ? & ? & ? & ? & ?).
    repeat split; congruence || lia.
  - pose proof (step_rest s ClickCapture) as H1.
    pose proof (step_rest (step s ClickCapture) (CaptureBlob b now)) as H2.
    cbv zeta in H1, H2.
    destruct H1 as (? & H1 & ? & ? & ? & ? & E1).
    destruct H2 as (? & H2 & ? & ? & ? & ?).
    rewrite E1 in H2.
    destruct H1 as [H1|[H1 Hlt]], H2 as [(? & ? & E2)|(? & ?)];
      try rewrite E2; repeat split; congruence || lia.
  - pose proof (step_rest s (ClickRemove i)) as H1. cbv zeta in H1.
    destruct H1 as (? & ? & ? & ? & ? & ? & ?).
    repeat split; congruence || lia.
  - pose proof (step_rest s ClickReset) as H1. cbv zeta in H1.
    destruct H1 as (? & ? & ? & ? & ? & ? & ?).
    repeat split; congruence || lia.
  - pose proof (step_rest s ClickRegister) as H1.
    pose proof (step_rest (step s ClickRegister) (RegisterSettled 0 o)) as H2.
    cbv zeta in H1, H2.
    destruct H1 as (? & ? & H1 & ? & ? & E1).
    destruct H2 as (? & ? & H2 & ? & ? & E2).
    rewrite E2, E1.
    destruct H1 as [[H1 ?]|[c H1]], H2 as [(H2 & E3 & ?)|[E3 ?]];
      rewrite H1, Hr in *; cbn in *; try discriminate;
      repeat split; congruence || lia.
  - pose proof (step_rest s ClickVerify) as H1.
    pose proof (step_rest (step s ClickVerify) (VerifyBlob b)) as H2.
    pose proof (step_rest (step (step s ClickVerify) (VerifyBlob b))
                  (VerifySettled r)) as H3.
    cbv zeta in H1, H2, H3.
    destruct H1 as (? & ? & ? & H1 & ? & E1).
    destruct H2 as (? & ? & ? & H2 & E2).
    destruct H3 as (? & ? & ? & ? & H3 & E3).
    rewrite E3, E2, E1.
    destruct H1 as [[? [?|?]]|?],
      H2 as [(? & ? & ? & ?)|(? & [[? ?]|?])],
      H3 as [(? & ? & ?)|(? & ?)];
      repeat split; congruence || lia.
Qed.

Lemma exec_resting (c : Canvas) (cs : list Command) :
  resting (exec (init c) cs).
Proof.
  induction cs as [|cmd cs IH] using rev_ind.
  - split; [done|]. split; [cbn; lia|]. split; [done|].
    intros i st Hi. cbn in Hi. by rewrite lookup_nil in Hi.
  - unfold exec. rewrite foldl_app. cbn [foldl].
    destruct IH as (Hc & Hcap & Hld & Ht).
    destruct (command_calm _ cmd Hc Hcap Hld) as (H1 & H2 & H3).
    split; [done|]. split; [done|]. split; [done|].
    by apply command_tracked.
Qed.

(** X16.  When every command has run to completion before the next one
    starts (in particular every photo is in the list before the next click),
    the pending list never holds more than ten images, the busy flag is
    never left raised, and nothing is left suspended. *)
Theorem settled_commands_keep_the_cap :
  ∀ (c : Canvas) (cs : list Command),
    let s := exec (init c) cs in
    (length (capturedImages s) ≤ 10)%nat
    ∧ isLoading s = false
    ∧ calm s.
Proof.
  intros c cs s. destruct (exec_resting c cs) as (Hc & Hcap & Hld & _).
  done.
Qed.

Lemma stop_twice (r : StreamRef) (md : list MediaStream) :
  alter stopTracks r (alter stopTracks r md) = alter stopTracks r md.
Proof.
  revert r. induction md as [|st md IH]; intros [|r]; cbn; try done.
  - f_equal. unfold stopTracks. by rewrite <- list_fmap_compose.
  - f_equal. apply IH.
Qed.

Lemma toggle_media uid imgs ld sl msg vres fm sref vr cr md urls nu reqs
    acq enc reg ve vi n :
  media (run (mkState uid imgs ld sl msg vres fm sref vr cr md urls nu reqs
                acq enc reg ve vi) [ClickToggle; MediaSettled (Granted n)])
  = match sref with
    | Some r => alter stopTracks r (alter stopTracks r md)
    | None => md
    end ++ [freshStream n].
Proof. destruct sref, vr; reflexivity. Qed.

Lemma toggle_ref uid imgs ld sl msg vres fm sref vr cr md urls nu reqs
    acq enc reg ve vi n :
  videoStreamRef
    (run (mkState uid imgs ld sl msg vres fm sref vr cr md urls nu reqs
            acq enc reg ve vi) [ClickToggle; MediaSettled (Granted n)])
  = Some (length (match sref with
                  | Some r => alter stopTracks r (alter stopTracks r md)
                  | None => md
                  end)).
Proof. destruct sref, vr; reflexivity. Qed.

(** X17.  Switching the camera is a stop followed by a start with the other
    facing mode.  After a granted toggle the facing mode has flipped (and
    flips back with the next toggle), every track of the stream held before
    has been stopped, the new stream is the one held, and at most one stream
    is active; this holds after every run of settled commands, toggles
    included.  The pending images are untouched. *)
Theorem toggle_is_stop_then_start :
  ∀ (c : Canvas) (cs : list Command) (n : nat),
    let s := exec (init c) cs in
    let s' := run s (events (CmdToggle (Granted n))) in
    (activeCount (media s) ≤ 1)%nat
    ∧ (activeCount (media s') ≤ 1)%nat
    ∧ facingMode s' = flip (facingMode s)
    ∧ flip (flip (facingMode s)) = facingMode s
    ∧ media s' =
        match videoStreamRef s with
        | Some r => alter stopTracks r (media s)
        | None => media s
        end ++ [freshStream n]
    ∧ videoStreamRef s' = Some (length (media s))
    ∧ stremLoaded s' = true
    ∧ capturedImages s' = capturedImages s.
Proof.
  intros c cs n s s'.
  destruct (exec_resting c cs) as (_ & _ & _ & Ht). fold s in Ht.
  pose proof (toggle_tracked s (Granted n) Ht) as Ht'.
  split; [by apply (BrowserFacts.activeCount_onlyActive _ _ Ht)|].
  split; [by apply (BrowserFacts.activeCount_onlyActive _ _ Ht')|].
  subst s'. clear Ht Ht'. clearbody s. cbn [events].
  destruct s as [uid imgs ld sl msg vres fm sref vr cr md urls nu reqs
                 acq enc reg ve vi].
  split; [destruct sref, vr; reflexivity|]. split; [by destruct fm|].
  rewrite toggle_media, toggle_ref. cbn [videoStreamRef media].
  split; [destruct sref; by rewrite ?stop_twice|].
  split; [destruct sref; by rewrite ?length_alter|].
  split; destruct sref, vr; reflexivity.
Qed.

(** *** Taking a photo *)

(** X18.  A photo taken with no other capture under way.  At the cap the
    click only reports that the maximum is reached.  Below the cap, with a
    video element, a canvas with a 2D context and a blob from the canvas,
    the new image goes to the end of the list with the clock value as its
    id and a newly created preview URL, and success is reported.  Below the
    cap without a surface to draw on or without a blob, nothing changes and
    nothing is reported. *)
Theorem captureImage_outcome :
  ∀ (s : State) (b : option Blob) (now : Z),
    encoding s = 0%nat →
    let s' := run s (captureImage b now) in
    if (10 <=? length (capturedImages s))%nat then
      capturedImages s' = capturedImages s
      ∧ objectURLs s' = objectURLs s
      ∧ message s' =
          mkMessage "Maximum number of images (10) reached" error
    else
      match videoRef s, canvasRef s, b with
      | Some _, Some (mkCanvas true), Some blob =>
          capturedImages s' =
            capturedImages s ++
              [mkImage now blob ("blob:" +:+ pretty (nextURL s))]
          ∧ objectURLs s' =
              objectURLs s ++ [("blob:" +:+ pretty (nextURL s), blob)]
          ∧ message s' = mkMessage "Image captured successfully" success
      | _, _, _ =>
          capturedImages s' = capturedImages s
          ∧ objectURLs s' = objectURLs s
          ∧ message s' = message s
      end.
Proof.
  intros [uid imgs ld sl msg vres fm sref vr cr md urls nu reqs
          acq enc reg ve vi] b now.
  cbn [encoding]. intros ->.
  unfold captureImage, run, step, captureImage_click, captureImage_blob,
    createObjectURL.
  cbn -[String.append pretty Nat.leb].
  destruct (10 <=? length imgs)%nat; [done|].
  by destruct vr, cr as [[[|]]|], b.
Qed.

Lemma captureImage_outcome_witness :
  capturedImages (run (RegisterRuns.withImages 0)
                    (captureImage (Some RegisterRuns.frame) 7)) =
    [mkImage 7 RegisterRuns.frame "blob:0"].
Proof.
  pose proof (captureImage_outcome (RegisterRuns.withImages 0)
                (Some RegisterRuns.frame) 7) as H.
  lapply H; [clear H; intros H | vm_compute; reflexivity].
  vm_compute in H. vm_compute. by destruct H as (H & _).
Defined.

End RegisterExtras.
